(** * skabelon: a command line front end for a template engine

    Shallow embedding of [src/skabelon/skabelon.py] and the properties of
    its option handling, dispatch-option parsing, render loop and exit
    status.

    Layout: Python text helpers ([str.split], [str.join], [in]); the
    exception classes the script distinguishes; the filesystem and the
    [pathlib] queries of the two path validators; the argument parser as
    configured by [parse_cmd_line]; the dispatch extension and template
    engine as collaborators; [main] in a state-and-exception monad; the
    [__main__] block that turns the outcome of [main] into an exit
    status; then the theorems. *)

From Stdlib Require Import ZArith Ascii String List Lia.
From stdpp Require Import base option list strings pretty gmap fin_maps.

Local Open Scope string_scope.

(** ** Python text helpers *)

Module PyStr.

(** [sep in s] for a one-character [sep]. *)
Fixpoint contains (sep : ascii) (s : string) : bool :=
  match s with
  | EmptyString => false
  | String c rest => if Ascii.eqb c sep then true else contains sep rest
  end.

(** [s.split(sep)] for a one-character [sep]: never the empty list, one
    more field than there are separators. *)
Fixpoint split (sep : ascii) (s : string) : list string :=
  match s with
  | EmptyString => [EmptyString]
  | String c rest =>
      if Ascii.eqb c sep then EmptyString :: split sep rest
      else match split sep rest with
           | field :: fields => String c field :: fields
           | [] => [String c EmptyString]
           end
  end.

(** [sep.join(parts)]. *)
Fixpoint join (sep : string) (parts : list string) : string :=
  match parts with
  | [] => EmptyString
  | [p] => p
  | p :: ps => p ++ sep ++ join sep ps
  end.

(** [s.endswith(suffix)]. *)
Definition endswith (s suffix : string) : bool :=
  let n := String.length s in
  let k := String.length suffix in
  (k <=? n)%nat && String.eqb (String.substring (n - k) k s) suffix.

(** [s.lstrip(c)] for a one-character strip set. *)
Fixpoint lstrip (c : ascii) (s : string) : string :=
  match s with
  | String a rest => if Ascii.eqb a c then lstrip c rest else s
  | EmptyString => EmptyString
  end.

End PyStr.

(** ** Exceptions

    The [__main__] block tells apart [SystemExit], [KeyboardInterrupt]
    and everything deriving from [Exception]; what derives from
    [BaseException] only is caught by no handler. *)

Inductive exn : Type :=
  | SystemExit (code : Z)
  | KeyboardInterrupt
  | ExceptionOf (cls : string) (msg : string)
  | BaseExceptionOf (cls : string).

Definition is_SystemExit (e : exn) : bool :=
  match e with SystemExit _ => true | _ => false end.

Inductive result (A : Type) : Type :=
  | Ok (a : A)
  | Raise (e : exn).
Arguments Ok {A} a.
Arguments Raise {A} e.

(** ** Dispatch options (lines 37-51 of [main]) *)

(** The double quote character, for messages that quote a colon. *)
Definition dquote : string := String (ascii_of_nat 34) EmptyString.

Definition err_msg : string :=
  "--dispatch-args must be passed a key:value par separated by a "
  ++ dquote ++ ":" ++ dquote.

(** One pass of the loop body: the [(key, value)] the token contributes,
    or the exception the body raises. *)
Definition parse_dispatch_opt (input_str : string) : result (string * string) :=
  if negb (PyStr.contains ":" input_str) then Raise (ExceptionOf "Exception" err_msg)
  else
    let parts := PyStr.split ":" input_str in
    if (2 <? length parts)%nat then
      Ok (hd EmptyString parts, PyStr.join ":" (tl parts))
    else if (length parts =? 2)%nat then
      match PyStr.split ":" input_str with
      | [key; value] => Ok (key, value)
      | _ => Raise (ExceptionOf "ValueError" "unpacking")
      end
    else Raise (ExceptionOf "Exception" err_msg).

(** The loop [for input_str in args.dispatch_opts], started from the
    dictionary built so far.  The dictionary is kept as a finite map
    from keys to values; the order in which the keys were put in is not
    recorded. *)
Fixpoint parse_dispatch_opts_from (dispatch_args : gmap string string)
    (dispatch_opts : list string) : result (gmap string string) :=
  match dispatch_opts with
  | [] => Ok dispatch_args
  | input_str :: rest =>
      match parse_dispatch_opt input_str with
      | Ok (key, value) => parse_dispatch_opts_from (<[key := value]> dispatch_args) rest
      | Raise e => Raise e
      end
  end.

Definition parse_dispatch_opts (dispatch_opts : list string) : result (gmap string string) :=
  parse_dispatch_opts_from ∅ dispatch_opts.

(** ** Filesystem and [pathlib] queries

    The filesystem maps a file, named by the place the operating system
    reaches for it, to what is found there.  Which place a path text
    leads to (the working directory, [.] and [..], repeated slashes,
    links) is the operating system's business: it is the function
    [resolve] that the definitions below take, applied to every path
    text the script hands to the operating system. *)

Inductive node : Type :=
  | File (content : string)
  | Dir.

(** [Path.exists()] and [Path.is_dir()], asked of the place the path
    leads to. *)
Definition path_exists (fs : gmap string node) (place : string) : bool :=
  match fs !! place with Some _ => true | None => false end.

Definition path_is_dir (fs : gmap string node) (place : string) : bool :=
  match fs !! place with Some Dir => true | _ => false end.

(** The components [pathlib] keeps of a path text: empty and [.]
    components are dropped. *)
Definition kept_part (c : string) : bool :=
  negb (String.eqb c EmptyString) && negb (String.eqb c ".").

Definition path_parts (path : string) : list string :=
  List.filter kept_part (PyStr.split "/" path).

(** The root [pathlib] gives a path text: none for a relative path, [//]
    for exactly two leading slashes, [/] for any other number. *)
Definition path_root (path : string) : string :=
  let n := String.length path - String.length (PyStr.lstrip "/" path) in
  if (n =? 0)%nat then EmptyString
  else if (n =? 2)%nat then "//"
  else "/".

(** [Path(input_string)], as the text [str] gives for it: the root, then
    the components joined by single slashes; [.] when nothing is left. *)
Definition Path (input_string : string) : string :=
  let text := path_root input_string ++ PyStr.join "/" (path_parts input_string) in
  if String.eqb text EmptyString then "." else text.

(** [Path(p).name]: the last component, empty and [.] components apart. *)
Definition path_name (path : string) : string :=
  List.last (path_parts path) EmptyString.

(** [Path(p).suffixes]: no suffix for a name ending in a dot, leading
    dots are not separators, every later dot starts a suffix. *)
Definition path_suffixes (path : string) : list string :=
  let name := path_name path in
  if PyStr.endswith name "." then []
  else map (fun suffix => "." ++ suffix)
           (tl (PyStr.split "." (PyStr.lstrip "." name))).

(** [x in l] on a list of strings. *)
Definition str_in (x : string) (l : list string) : bool :=
  existsb (String.eqb x) l.

(** ** The two [type=] validators of the parser

    Both build [Path(input_string)], question it, and return it. *)

Definition directory_path (resolve : string → string) (fs : gmap string node)
    (error_message input_string : string) : result string :=
  let path := Path input_string in
  if path_exists fs (resolve path) && path_is_dir fs (resolve path)
  then Ok path
  else Raise (ExceptionOf "ArgumentTypeError" error_message).

Definition dispatch_file (resolve : string → string) (fs : gmap string node)
    (error_message input_string : string) : result string :=
  let path := Path input_string in
  if path_exists fs (resolve path) && str_in ".py" (path_suffixes path)
  then Ok path
  else Raise (ExceptionOf "ArgumentTypeError" error_message).

(** ** Observable steps of a run *)

Inductive event : Type :=
  | Print (text : string)                      (* standard output *)
  | PrintArgs (debug verbose : bool) (templates dispatch : string)
              (dispatch_opts : list string)    (* the parsed arguments on standard output *)
  | UsageError (message : string)              (* [parser.error]: usage and message on the error stream *)
  | Traceback (e : exn)                        (* an error trace on the error stream *)
  | ExecModule (path : string)                 (* lines 32-35 are entered for this extension file *)
  | CallDispatch (kwargs : gmap string string) (* the entry point is called with these keyword arguments *)
  | GetTemplate (tname : string)
  | OpenW (path : string)                      (* the output file is opened for writing *)
  | Render (tname : string)
  | WriteText (path : string) (text : string).

(** The process state: the filesystem, the two module globals and what
    happened so far, oldest first. *)
Record state : Type := mkState {
  fs : gmap string node;
  DEBUG : bool;
  VERBOSE : bool;
  trace : list event
}.

(** A state with further events logged. *)
Definition logged (st : state) (evs : list event) : state :=
  mkState (fs st) (DEBUG st) (VERBOSE st) (trace st ++ evs).

(** ** State and exception monad *)

Definition M (A : Type) : Type := state → result A * state.

Definition ret {A} (a : A) : M A := fun st => (Ok a, st).
Definition raise {A} (e : exn) : M A := fun st => (Raise e, st).
Definition bind {A B} (c : M A) (k : A → M B) : M B :=
  fun st => match c st with
            | (Ok a, st') => k a st'
            | (Raise e, st') => (Raise e, st')
            end.
Definition lift {A} (r : result A) : M A := fun st => (r, st).

Notation "'let*' x ':=' c 'in' k" := (bind c (fun x => k))
  (at level 10, x name, c at level 100, k at level 200).

Definition emit (e : event) : M unit :=
  fun st => (Ok tt, logged st [e]).
Definition get_fs : M (gmap string node) := fun st => (Ok (fs st), st).
Definition put_fs (fs' : gmap string node) : M unit :=
  fun st => (Ok tt, mkState fs' (DEBUG st) (VERBOSE st) (trace st)).
Definition get_DEBUG : M bool := fun st => (Ok (DEBUG st), st).
Definition set_DEBUG : M unit :=
  fun st => (Ok tt, mkState (fs st) true (VERBOSE st) (trace st)).
Definition set_VERBOSE : M unit :=
  fun st => (Ok tt, mkState (fs st) (DEBUG st) true (trace st)).

(** [sys.exit(code)]. *)
Definition sys_exit {A} (code : Z) : M A := raise (SystemExit code).

(** ** The argument parser configured by [parse_cmd_line]

    The lexical work of [argparse] (matching option strings, pairing an
    option with its value) is library behaviour; an invocation is given
    here as the option occurrences found on the command line, in order.
    A command line [argparse] cannot divide into occurrences, such as
    one with an ambiguous abbreviation, is no such list. *)

Inductive cli_arg : Type :=
  | ArgVersion
  | ArgHelp
  | ArgDebug
  | ArgVerbose
  | ArgTemplates (value : string)
  | ArgDispatch (value : string)
  | ArgDispatchOpt (value : string)
  | ArgMissingValue (flag : string)   (* a value-taking option with no value after it *)
  | ArgUnrecognized (text : string).

Definition VERSION : string := "0.1".

(** The namespace while the command line is consumed. *)
Record Namespace : Type := mkNamespace {
  ns_debug : bool;
  ns_verbose : bool;
  ns_templates : option string;
  ns_dispatch : option string;
  ns_dispatch_opts : list string
}.

(** What [parser.parse_args()] returns once both required options were
    seen. *)
Record Args : Type := mkArgs {
  debug : bool;
  verbose : bool;
  templates : string;
  dispatch : string;
  dispatch_opts : list string
}.

Definition initial_namespace : Namespace :=
  mkNamespace false false None None [].

(** [parser.error(message)]: usage and message on the error stream, then
    [sys.exit(2)]. *)
Definition parser_error {A} (message : string) : M A :=
  let* _ := emit (UsageError message) in sys_exit 2.

(** A [type=] callable run by the parser: an [ArgumentTypeError] becomes
    a parser error for the option [flag]. *)
Definition convert (flag : string) (r : result string) : M string :=
  match r with
  | Ok p => ret p
  | Raise (ExceptionOf "ArgumentTypeError" message) =>
      parser_error ("argument " ++ flag ++ ": " ++ message)
  | Raise e => raise e
  end.

Definition templates_error_message : string :=
  "The given path is not a valid template directory.".
Definition dispatch_error_message : string :=
  "The given path is not a valid dispatch script.".

(** The option occurrences are handled from left to right; each runs its
    action at once. *)
Fixpoint consume (resolve : string → string) (argv : list cli_arg) (ns : Namespace)
    (extras : list string) : M (Namespace * list string) :=
  match argv with
  | [] => ret (ns, extras)
  | ArgVersion :: _ => let* _ := emit (Print ("skabelon.py " ++ VERSION)) in sys_exit 0
  | ArgHelp :: _ => let* _ := emit (Print "usage: skabelon.py") in sys_exit 0
  | ArgDebug :: rest =>
      let* _ := set_DEBUG in
      consume resolve rest (mkNamespace true (ns_verbose ns) (ns_templates ns)
                                (ns_dispatch ns) (ns_dispatch_opts ns)) extras
  | ArgVerbose :: rest =>
      let* _ := set_VERBOSE in
      consume resolve rest (mkNamespace (ns_debug ns) true (ns_templates ns)
                                (ns_dispatch ns) (ns_dispatch_opts ns)) extras
  | ArgTemplates value :: rest =>
      let* files := get_fs in
      let* path := convert "--templates"
                     (directory_path resolve files templates_error_message value) in
      consume resolve rest (mkNamespace (ns_debug ns) (ns_verbose ns) (Some path)
                                (ns_dispatch ns) (ns_dispatch_opts ns)) extras
  | ArgDispatch value :: rest =>
      let* files := get_fs in
      let* path := convert "--dispatch"
                     (dispatch_file resolve files dispatch_error_message value) in
      consume resolve rest (mkNamespace (ns_debug ns) (ns_verbose ns) (ns_templates ns)
                                (Some path) (ns_dispatch_opts ns)) extras
  | ArgDispatchOpt value :: rest =>
      consume resolve rest (mkNamespace (ns_debug ns) (ns_verbose ns) (ns_templates ns)
                                (ns_dispatch ns) (ns_dispatch_opts ns ++ [value])) extras
  | ArgMissingValue flag :: _ =>
      parser_error ("argument " ++ flag ++ ": expected one argument")
  | ArgUnrecognized text :: rest => consume resolve rest ns (extras ++ [text])
  end.

(** [parse_cmd_line()]: both [--templates] and [--dispatch] are
    [required=True]; what was not recognised is reported last. *)
Definition parse_cmd_line (resolve : string → string) (argv : list cli_arg) : M Args :=
  let* parsed := consume resolve argv initial_namespace [] in
  match ns_templates (fst parsed), ns_dispatch (fst parsed) with
  | Some t, Some d =>
      match snd parsed with
      | [] => ret (mkArgs (ns_debug (fst parsed)) (ns_verbose (fst parsed)) t d
                          (ns_dispatch_opts (fst parsed)))
      | _ :: _ => parser_error "unrecognized arguments"
      end
  | _, _ => parser_error "the following arguments are required"
  end.

(** [dprint(msg)]: printed only when [DEBUG] is set. *)
Definition dprint (msg : event) : M unit :=
  let* flag := get_DEBUG in
  if flag then emit msg else ret tt.

(** [vprint(msg)]: printed only when [VERBOSE] is set.  The script never
    calls it. *)
Definition vprint (msg : event) : M unit :=
  fun st => if VERBOSE st then emit msg st else ret tt st.

(** ** Collaborators: template engine and dispatch extension *)

(** Scalar values a render context can hold. *)
Inductive value : Type :=
  | VStr (s : string)
  | VInt (z : Z)
  | VBool (b : bool)
  | VNone.

(** One render instruction: [(tname, context, output_file)]. *)
Definition instruction : Type := string * gmap string value * string.

(** What iterating the value returned by the entry point produces: a
    finite run of instructions that ends normally or with an exception;
    the tail is only reached when the loop asks for the next item.  What
    the extension itself does to the filesystem between two items is not
    part of the model. *)
Inductive generator : Type :=
  | GStop
  | GRaise (e : exn)
  | GYield (item : instruction) (rest : generator).

(** The loaded module: its [dispatch] attribute, if it has one. *)
Record module : Type := mkModule {
  dispatch_attr : option (gmap string string → result generator)
}.

(** The generator that yields the given instructions and goes on as
    [after]. *)
Fixpoint yields (items : list instruction) (after : generator) : generator :=
  match items with
  | [] => after
  | item :: rest => GYield item (yields rest after)
  end.

(** The template engine: compiling a source text, rendering a compiled
    template against a context. *)
Record Engine : Type := mkEngine {
  template : Type;
  compile : string → result template;
  render : template → gmap string value → result string
}.

(** The loader of the engine, a [FileSystemLoader] on one directory.
    A template name is cut at its slashes; empty and [.] pieces are
    dropped and a [..] piece is refused. *)
Definition split_template_path (tname : string) : option (list string) :=
  if str_in ".." (PyStr.split "/" tname) then None
  else Some (path_parts tname).

(** [posixpath.join(searchpath, *pieces)]: a slash goes between two
    pieces unless what was joined so far is empty or ends in one. *)
Definition posix_join (searchpath : string) (pieces : list string) : string :=
  foldl (fun path piece =>
           if String.eqb path EmptyString || PyStr.endswith path "/"
           then path ++ piece
           else path ++ "/" ++ piece)
        searchpath pieces.

(** The file a template name stands for under the loader's directory. *)
Definition template_file (searchpath tname : string) : option string :=
  match split_template_path tname with
  | Some pieces => Some (posix_join searchpath pieces)
  | None => None
  end.

(** The source text the loader finds for a template name: the name must
    stand for a file, and a regular file must be there. *)
Definition template_source (resolve : string → string) (files : gmap string node)
    (searchpath tname : string) : option string :=
  match template_file searchpath tname with
  | Some filename =>
      match files !! resolve filename with
      | Some (File source) => Some source
      | _ => None
      end
  | None => None
  end.

(** ** [main] and the [__main__] block *)

Section Program.

(** The place a path text leads to. *)
Variable resolve : string → string.

(** The template engine in use. *)
Variable engine : Engine.

(** Lines 32-35 as a whole, for the file given to [--dispatch]: a loader
    is looked for, the module is created and the file is run.  The
    outcome is the module the file defines, or the exception that
    escapes: the one the file raises when run, or the [AttributeError]
    of line 34 when no loader is found for a file of that name. *)
Variable exec_module : gmap string node → string → result module.

(** The operating system refusing to open a path for writing. *)
Variable open_error : gmap string node → string → option exn.

(** [Environment.get_template(tname)] with a [FileSystemLoader] on
    [searchpath]: the file must be there, then it is compiled. *)
Definition get_template (searchpath tname : string) : M (template engine) :=
  let* _ := emit (GetTemplate tname) in
  let* files := get_fs in
  match template_source resolve files searchpath tname with
  | Some source => lift (compile engine source)
  | None => raise (ExceptionOf "TemplateNotFound" tname)
  end.

(** [open(output_file, w)]: the file is created, or emptied when it
    exists. *)
Definition open_w (output_file : string) : M unit :=
  let* _ := emit (OpenW output_file) in
  let* files := get_fs in
  match open_error files output_file with
  | Some e => raise e
  | None => put_fs (<[resolve output_file := File EmptyString]> files)
  end.

(** [template.render], the context given as keyword arguments. *)
Definition render_template (tname : string) (t : template engine)
    (context : gmap string value) : M string :=
  let* _ := emit (Render tname) in
  lift (render engine t context).

(** [fout.write(text)]. *)
Definition write_text (output_file text : string) : M unit :=
  let* _ := emit (WriteText output_file text) in
  let* files := get_fs in
  put_fs (<[resolve output_file := File text]> files).

(** The body of the render loop for one instruction: the template is
    looked up, the [with] statement opens the output file, and the
    argument of [fout.write] is evaluated inside it. *)
Definition render_one (searchpath : string) (item : instruction) : M unit :=
  let '(tname, context, output_file) := item in
  let* t := get_template searchpath tname in
  let* _ := open_w output_file in
  let* text := render_template tname t context in
  write_text output_file text.

(** [for tname, context, output_file in dispatcher.dispatch(...)]. *)
Fixpoint render_loop (searchpath : string) (g : generator) : M unit :=
  match g with
  | GStop => ret tt
  | GRaise e => raise e
  | GYield item rest =>
      let* _ := render_one searchpath item in
      render_loop searchpath rest
  end.

(** Lines 32-35: the extension file is loaded. *)
Definition load_dispatcher (path : string) : M module :=
  let* _ := emit (ExecModule path) in
  let* files := get_fs in
  lift (exec_module files path).

(** [dispatcher.dispatch], the options given as keyword arguments. *)
Definition call_dispatch (dispatcher : module) (dispatch_args : gmap string string)
  : M generator :=
  match dispatch_attr dispatcher with
  | None => raise (ExceptionOf "AttributeError" "dispatch")
  | Some entry =>
      let* _ := emit (CallDispatch dispatch_args) in
      lift (entry dispatch_args)
  end.

(** [main] from its second line on, the arguments being parsed. *)
Definition main_from (args : Args) : M Z :=
  let* _ := dprint (PrintArgs (debug args) (verbose args) (templates args)
                              (dispatch args) (dispatch_opts args)) in
  let* dispatcher := load_dispatcher (dispatch args) in
  let* dispatch_args := lift (parse_dispatch_opts (dispatch_opts args)) in
  let* g := call_dispatch dispatcher dispatch_args in
  let* _ := render_loop (templates args) g in
  ret 0%Z.

Definition main (argv : list cli_arg) : M Z :=
  let* args := parse_cmd_line resolve argv in
  main_from args.

(** The [__main__] block: [sys.exit(main())] under its three handlers.
    What no handler catches is passed on. *)
Definition dunder_main (argv : list cli_arg) : M unit :=
  fun st =>
    match (let* status := main argv in sys_exit status) st with
    | (Raise (SystemExit _), st') => sys_exit 0 st'
    | (Raise KeyboardInterrupt, st') =>
        (let* _ := emit (Print "...interrupted by user, exiting.") in sys_exit 1) st'
    | (Raise (ExceptionOf cls msg), st') =>
        (let* _ := emit (Traceback (ExceptionOf cls msg)) in sys_exit 1) st'
    | other => other
    end.

(** A run of the script from the command line, with the exit status
    the interpreter gives the process: the code of an escaping
    [SystemExit]; 1, after an error trace, for any other escaping
    exception; 0 when the script runs to its end. *)
Definition run (argv : list cli_arg) (st : state) : Z * state :=
  match dunder_main argv st with
  | (Ok _, st') => (0%Z, st')
  | (Raise (SystemExit code), st') => (code, st')
  | (Raise e, st') => (1%Z, logged st' [Traceback e])
  end.

End Program.

(** The state of a fresh process on the given filesystem: both globals
    are [False] and nothing has happened yet. *)
Definition boot (files : gmap string node) : state :=
  mkState files false false [].

(** The state in which [main] has printed the arguments, when asked
    to, and has entered the load of the dispatch extension. *)
Definition loaded (args : Args) (st : state) : state :=
  logged st
    ((if DEBUG st
      then [PrintArgs (debug args) (verbose args) (templates args)
                      (dispatch args) (dispatch_opts args)]
      else []) ++ [ExecModule (dispatch args)]).

Arguments loaded : simpl never.

(** ** Vocabulary of the statements *)

(** The text before the first [sep] of [s]. *)
Fixpoint before_first (sep : ascii) (s : string) : string :=
  match s with
  | EmptyString => EmptyString
  | String c rest =>
      if Ascii.eqb c sep then EmptyString else String c (before_first sep rest)
  end.

(** The text after the first [sep] of [s]. *)
Fixpoint after_first (sep : ascii) (s : string) : string :=
  match s with
  | EmptyString => EmptyString
  | String c rest => if Ascii.eqb c sep then rest else after_first sep rest
  end.

(** The values of the [--dispatch-opt] occurrences of a command line, in
    order. *)
Fixpoint opt_values (argv : list cli_arg) : list string :=
  match argv with
  | [] => []
  | ArgDispatchOpt value :: rest => value :: opt_values rest
  | _ :: rest => opt_values rest
  end.

(** The paths opened for writing, and the files written, in a trace. *)
Fixpoint opened_paths (tr : list event) : list string :=
  match tr with
  | [] => []
  | OpenW path :: rest => path :: opened_paths rest
  | _ :: rest => opened_paths rest
  end.

Fixpoint written_files (tr : list event) : list (string * string) :=
  match tr with
  | [] => []
  | WriteText path text :: rest => (path, text) :: written_files rest
  | _ :: rest => written_files rest
  end.

Definition is_ExecModule (e : event) : bool :=
  match e with ExecModule _ => true | _ => false end.
Definition is_CallDispatch (e : event) : bool :=
  match e with CallDispatch _ => true | _ => false end.

Definition tname_of (item : instruction) : string := item.1.1.
Definition output_of (item : instruction) : string := item.2.

(** A path whose file name ends in [.py]. *)
Definition has_py_suffix (path : string) : bool :=
  PyStr.endswith (path_name path) ".py".

(** The events the render loop produces. *)
Definition loop_event (e : event) : bool :=
  match e with
  | GetTemplate _ | OpenW _ | Render _ | WriteText _ _ => true
  | _ => false
  end.

(** ** A small template engine for the examples

    Literal text with [{{ name }}] and [{{ name.attr }}] expressions.  As
    with the default settings of the engine the script uses, an
    undefined variable prints as nothing and an attribute of an
    undefined variable is an error raised while rendering; an unclosed
    expression is an error raised while compiling. *)

Module MiniEngine.

Inductive piece : Type :=
  | Text (s : string)
  | Var (name : string)
  | Attr (name attr : string).

Fixpoint strip_spaces (s : string) : string :=
  match s with
  | EmptyString => EmptyString
  | String c rest =>
      if Ascii.eqb c " " then strip_spaces rest else String c (strip_spaces rest)
  end.

Definition expr_of (body : string) : piece :=
  let b := strip_spaces body in
  if PyStr.contains "." b then Attr (before_first "." b) (after_first "." b)
  else Var b.

Definition cons_piece (p : piece) (r : result (list piece)) : result (list piece) :=
  match r with
  | Ok ps => Ok (p :: ps)
  | Raise e => Raise e
  end.

Fixpoint lex (s : string) (inside : bool) (acc : string) : result (list piece) :=
  match s with
  | EmptyString =>
      if inside
      then Raise (ExceptionOf "TemplateSyntaxError" "unexpected end of template")
      else Ok [Text acc]
  | String c rest =>
      match rest with
      | String d rest' =>
          if Ascii.eqb c "{" && Ascii.eqb d "{" && negb inside
          then cons_piece (Text acc) (lex rest' true EmptyString)
          else if Ascii.eqb c "}" && Ascii.eqb d "}" && inside
          then cons_piece (expr_of acc) (lex rest' false EmptyString)
          else lex rest inside (acc ++ String c EmptyString)
      | EmptyString => lex rest inside (acc ++ String c EmptyString)
      end
  end.

Definition show (v : value) : string :=
  match v with
  | VStr s => s
  | VInt z => pretty z
  | VBool true => "True"
  | VBool false => "False"
  | VNone => "None"
  end.

Definition prepend (s : string) (r : result string) : result string :=
  match r with
  | Ok text => Ok (s ++ text)
  | Raise e => Raise e
  end.

Fixpoint render_pieces (ps : list piece) (context : gmap string value)
  : result string :=
  match ps with
  | [] => Ok EmptyString
  | Text s :: rest => prepend s (render_pieces rest context)
  | Var name :: rest =>
      prepend (match context !! name with Some v => show v | None => EmptyString end)
              (render_pieces rest context)
  | Attr name _ :: rest =>
      match context !! name with
      | Some _ => render_pieces rest context
      | None => Raise (ExceptionOf "UndefinedError" (name ++ " is undefined"))
      end
  end.

Definition engine : Engine :=
  mkEngine (list piece) (fun source => lex source false EmptyString) render_pieces.

(** An extension whose entry point yields the given instructions,
    whatever options it is called with. *)
Definition yielding (items : list instruction) : module :=
  mkModule (Some (fun _ => Ok (yields items GStop))).

(** A filesystem on which every path may be opened for writing. *)
Definition may_open : gmap string node → string → option exn :=
  fun _ _ => None.

End MiniEngine.

(** ** Three readings that the code does not bear out

    Each is the wording of the specification put as a proposition, to
    be compared with what the definitions above do. *)

(** "Accepted exactly when the path exists and has the suffix [.py]". *)
Definition dispatch_accepted_iff_py_suffix : Prop :=
  ∀ (resolve : string → string) (files : gmap string node)
    (error_message path : string),
    dispatch_file resolve files error_message path = Ok (Path path)
    ↔ path_exists files (resolve (Path path)) = true ∧ has_py_suffix path = true.

(** "A token without a colon is reported by the argument parser, with
    the usage text, before the extension is loaded; the status is 1". *)
Definition rejected_by_parser_before_load (outcome : Z * state) : Prop :=
  outcome.1 = 1%Z
  ∧ (∃ message, UsageError message ∈ trace outcome.2)
  ∧ ∀ path, ExecModule path ∉ trace outcome.2.

(** "A failure while rendering leaves the output file of that
    instruction neither created nor emptied". *)
Definition render_failure_leaves_output (resolve : string → string) (engine : Engine)
    (open_error : gmap string node → string → option exn) : Prop :=
  ∀ searchpath tname context output_file source t e st,
    template_source resolve (fs st) searchpath tname = Some source →
    compile engine source = Ok t →
    render engine t context = Raise e →
    fs (render_one resolve engine open_error searchpath
          (tname, context, output_file) st).2
      !! resolve output_file
    = fs st !! resolve output_file.

(** ** A concrete installation for the examples *)

Module Demo.

(** Every file is reached by the text [pathlib] gives its path. *)
Definition resolve : string → string := Path.

Definition files : gmap string node :=
  {[ "tpl" := Dir;
     "tpl/t.tmpl" := File "Hello {{ name }}";
     "tpl/user.tmpl" := File "Dear {{ user.name }}";
     "d.py" := File "dispatch";
     "mod.py.txt" := File "dispatch";
     "notes.txt" := File "notes";
     "report.txt" := File "kept" ]}.

Definition hello : instruction :=
  ("t.tmpl", {[ "name" := VStr "World" ]}, "out.txt").
Definition dear : instruction := ("user.tmpl", ∅, "report.txt").
Definition absent : instruction := ("absent.tmpl", ∅, "late.txt").

(** Loading any extension file gives a module whose entry point yields
    [items]. *)
Definition exec (items : list instruction)
  : gmap string node → string → result module :=
  fun _ _ => Ok (MiniEngine.yielding items).

(** Loading the extension file runs [sys.exit(code)]. *)
Definition exec_exits (code : Z) : gmap string node → string → result module :=
  fun _ _ => Raise (SystemExit code).

Definition argv : list cli_arg := [ArgTemplates "tpl"; ArgDispatch "d.py"].

Definition parsed (opts : list string) : Args :=
  mkArgs false false "tpl" "d.py" opts.

Definition run_with (items : list instruction) (argv : list cli_arg) : Z * state :=
  run resolve MiniEngine.engine (exec items) MiniEngine.may_open argv (boot files).

(** The state in which the loop on [hello; absent; hello] reaches its
    second instruction. *)
Definition after_hello : state :=
  Eval vm_compute in
    (render_loop resolve MiniEngine.engine MiniEngine.may_open "tpl"
       (yields [hello] GStop)
       (logged (loaded (parsed []) (boot files)) [CallDispatch ∅])).2.

(** Loading any extension file gives a module whose entry point returns
    the generator [g]. *)
Definition exec_gen (g : generator) : gmap string node → string → result module :=
  fun _ _ => Ok (mkModule (Some (fun _ => Ok g))).

(** No loader is found for a file whose name does not end in [.py];
    any other file loads as a module without [dispatch]. *)
Definition exec_py : gmap string node → string → result module :=
  fun _ path =>
    if PyStr.endswith path ".py" then Ok (mkModule None)
    else Raise (ExceptionOf "AttributeError"
                 "'NoneType' object has no attribute 'loader'").

(** An operating system that lets every path be opened but
    [report.txt]. *)
Definition refuse_report : gmap string node → string → option exn :=
  fun _ path =>
    if String.eqb path "report.txt"
    then Some (ExceptionOf "PermissionError" path)
    else None.

End Demo.

(** ** Vocabulary for the parser as a whole *)

(** The values of the [--templates] and of the [--dispatch] occurrences,
    in order, and what was not recognised. *)
Fixpoint templates_values (argv : list cli_arg) : list string :=
  match argv with
  | [] => []
  | ArgTemplates value :: rest => value :: templates_values rest
  | _ :: rest => templates_values rest
  end.

Fixpoint dispatch_values (argv : list cli_arg) : list string :=
  match argv with
  | [] => []
  | ArgDispatch value :: rest => value :: dispatch_values rest
  | _ :: rest => dispatch_values rest
  end.

Fixpoint unrecognized (argv : list cli_arg) : list string :=
  match argv with
  | [] => []
  | ArgUnrecognized text :: rest => text :: unrecognized rest
  | _ :: rest => unrecognized rest
  end.

Definition has_debug (argv : list cli_arg) : bool :=
  existsb (fun a => match a with ArgDebug => true | _ => false end) argv.

Definition has_verbose (argv : list cli_arg) : bool :=
  existsb (fun a => match a with ArgVerbose => true | _ => false end) argv.

(** An occurrence the parser gets past on the given filesystem. *)
Definition arg_passes (resolve : string → string) (files : gmap string node)
    (a : cli_arg) : bool :=
  match a with
  | ArgVersion | ArgHelp | ArgMissingValue _ => false
  | ArgTemplates value => path_is_dir files (resolve (Path value))
  | ArgDispatch value =>
      path_exists files (resolve (Path value))
      && str_in ".py" (path_suffixes (Path value))
  | ArgDebug | ArgVerbose | ArgDispatchOpt _ | ArgUnrecognized _ => true
  end.

(** The state with the two globals raised as the flags ask. *)
Definition with_flags (st : state) (argv : list cli_arg) : state :=
  mkState (fs st) (DEBUG st || has_debug argv) (VERBOSE st || has_verbose argv)
          (trace st).

(** ** Vocabulary for whole runs *)

(** The filesystem after the given files were written, in order. *)
Definition apply_writes (resolve : string → string) (files : gmap string node)
    (writes : list (string * string)) : gmap string node :=
  foldl (fun acc w => <[resolve w.1 := File w.2]> acc) files writes.

(** The text last written to the file found at [place], if any. *)
Definition last_written (resolve : string → string) (writes : list (string * string))
    (place : string) : option string :=
  foldl (fun acc w => if String.eqb (resolve w.1) place then Some w.2 else acc)
        None writes.

(** The texts that instructions which all go through leave in their
    output files, in order: each is what the engine renders from the
    template found when the instruction is reached, the earlier texts
    being in their files by then.  There are none as soon as one
    instruction does not go through: its template is not found or does
    not compile, its output file cannot be opened, or the rendering
    fails. *)
Fixpoint rendered_texts (resolve : string → string) (engine : Engine)
    (open_error : gmap string node → string → option exn)
    (searchpath : string) (files : gmap string node) (items : list instruction)
  : option (list (string * string)) :=
  match items with
  | [] => Some []
  | (tname, context, output_file) :: rest =>
      match template_source resolve files searchpath tname with
      | None => None
      | Some source =>
          match compile engine source, open_error files output_file with
          | Ok t, None =>
              match render engine t context with
              | Raise _ => None
              | Ok text =>
                  match rendered_texts resolve engine open_error searchpath
                          (<[resolve output_file := File text]> files) rest with
                  | Some writes => Some ((output_file, text) :: writes)
                  | None => None
                  end
              end
          | _, _ => None
          end
      end
  end.

(** The steps of the loop for instructions that go through with the
    given texts. *)
Fixpoint pass_events (items : list instruction) (writes : list (string * string))
  : list event :=
  match items, writes with
  | item :: items', (_, text) :: writes' =>
      [GetTemplate (tname_of item); OpenW (output_of item);
       Render (tname_of item); WriteText (output_of item) text]
      ++ pass_events items' writes'
  | _, _ => []
  end.

(** The same event, state or arguments with the verbose flag put down. *)
Definition hush_event (e : event) : event :=
  match e with
  | PrintArgs d _ t p o => PrintArgs d false t p o
  | _ => e
  end.

Definition hush (st : state) : state :=
  mkState (fs st) (DEBUG st) false (map hush_event (trace st)).

Definition hush_args (args : Args) : Args :=
  mkArgs (debug args) false (templates args) (dispatch args) (dispatch_opts args).

Definition not_verbose (a : cli_arg) : bool :=
  match a with ArgVerbose => false | _ => true end.

(** The last of the given values, or what was there before. *)
Definition last_or (values : list string) (before : option string) : option string :=
  match last values with
  | Some value => Some value
  | None => before
  end.

(** The namespace after a command line every occurrence of which
    passes. *)
Definition final_namespace (ns : Namespace) (argv : list cli_arg) : Namespace :=
  mkNamespace (ns_debug ns || has_debug argv) (ns_verbose ns || has_verbose argv)
              (last_or (Path <$> templates_values argv) (ns_templates ns))
              (last_or (Path <$> dispatch_values argv) (ns_dispatch ns))
              (ns_dispatch_opts ns ++ opt_values argv).

Definition is_PrintArgs (e : event) : bool :=
  match e with PrintArgs _ _ _ _ _ => true | _ => false end.

(** The exit status the [__main__] block gives an exception that ends
    [main], and what it prints for it. *)
Definition status_of (e : exn) : Z :=
  match e with SystemExit _ => 0%Z | _ => 1%Z end.

Definition report_of (e : exn) : list event :=
  match e with
  | SystemExit _ => []
  | KeyboardInterrupt => [Print "...interrupted by user, exiting."]
  | _ => [Traceback e]
  end.

(** A run of [n] dots. *)
Fixpoint dots (n : nat) : string :=
  match n with
  | O => EmptyString
  | S n' => String "." (dots n')
  end.

Definition hush_namespace (ns : Namespace) : Namespace :=
  mkNamespace (ns_debug ns) false (ns_templates ns) (ns_dispatch ns)
              (ns_dispatch_opts ns).

(** Two outcomes of the parser loop that differ in the verbose flag
    only. *)
Definition same_but_verbose (r r' : result (Namespace * list string) * state) : Prop :=
  hush r.2 = hush r'.2
  ∧ match r.1, r'.1 with
    | Ok (ns, extras), Ok (ns', extras') =>
        hush_namespace ns = hush_namespace ns' ∧ extras = extras'
    | Raise e, Raise e' => e = e'
    | _, _ => False
    end.

(** * Properties *)

(** ** Text helpers *)

Lemma split_not_nil sep s : PyStr.split sep s ≠ [].
Proof.
  destruct s as [|c s]; simpl; [discriminate|].
  destruct (Ascii.eqb c sep); [discriminate|].
  destruct (PyStr.split sep s); discriminate.
Qed.

Lemma contains_app_sep sep key value :
  PyStr.contains sep (key ++ String sep value) = true.
Proof.
  induction key as [|c k IH]; simpl.
  - by rewrite Ascii.eqb_refl.
  - destruct (Ascii.eqb c sep); auto.
Qed.

Lemma split_app_sep sep key value :
  PyStr.contains sep key = false →
  PyStr.split sep (key ++ String sep value) = key :: PyStr.split sep value.
Proof.
  induction key as [|c k IH]; simpl.
  - intros _. by rewrite Ascii.eqb_refl.
  - destruct (Ascii.eqb c sep); [discriminate|].
    intros H. by rewrite (IH H).
Qed.

Lemma join_split sep s :
  PyStr.join (String sep EmptyString) (PyStr.split sep s) = s.
Proof.
  induction s as [|c s IH]; simpl; [done|].
  destruct (Ascii.eqb c sep) eqn:E.
  - apply Ascii.eqb_eq in E as ->.
    destruct (PyStr.split sep s) as [|f fs] eqn:Hs.
    + by destruct (split_not_nil sep s).
    + simpl in *. by rewrite IH.
  - destruct (PyStr.split sep s) as [|f fs] eqn:Hs.
    + by destruct (split_not_nil sep s).
    + destruct fs as [|g gs]; simpl in *; by rewrite <- IH.
Qed.

(** What the loop body computes for a token cut at its first colon. *)
Lemma parse_dispatch_opt_cut key value :
  PyStr.contains ":" key = false →
  parse_dispatch_opt (key ++ ":" ++ value) = Ok (key, value).
Proof.
  intros Hk. unfold parse_dispatch_opt.
  change (key ++ ":" ++ value) with (key ++ String ":" value).
  rewrite contains_app_sep, (split_app_sep _ _ _ Hk). simpl.
  pose proof (join_split ":" value) as Hj.
  destruct (PyStr.split ":" value) as [|f [|g gs]] eqn:Hs.
  - by destruct (split_not_nil ":" value).
  - simpl in *. by subst.
  - simpl in *. by rewrite Hj.
Qed.

Lemma parse_dispatch_opt_no_colon input_str :
  PyStr.contains ":" input_str = false →
  parse_dispatch_opt input_str = Raise (ExceptionOf "Exception" err_msg).
Proof. intros H. unfold parse_dispatch_opt. by rewrite H. Qed.

Lemma cut_at_first sep s :
  PyStr.contains sep s = true →
  s = before_first sep s ++ String sep (after_first sep s)
  ∧ PyStr.contains sep (before_first sep s) = false.
Proof.
  induction s as [|c s IH]; simpl; [discriminate|].
  destruct (Ascii.eqb c sep) eqn:E.
  - intros _. apply Ascii.eqb_eq in E as ->. auto.
  - intros H. destruct (IH H) as [Hs Hk]. split.
    + change (String c s = String c (before_first sep s ++ String sep (after_first sep s))).
      by f_equal.
    + simpl. by rewrite E.
Qed.

(** The loop body agrees with a cut at the first colon. *)
Lemma parse_dispatch_opt_first_colon input_str :
  PyStr.contains ":" input_str = true →
  parse_dispatch_opt input_str
  = Ok (before_first ":" input_str, after_first ":" input_str).
Proof.
  intros H. destruct (cut_at_first _ _ H) as [Hs Hk].
  rewrite Hs at 1. by apply parse_dispatch_opt_cut.
Qed.

(** ** Dispatch options *)



(** On tokens that all hold a colon the loop is a fold of insertions. *)
Lemma parse_dispatch_opts_from_fold (opts : list string) :
  ∀ m : gmap string string,
    Forall (fun t => PyStr.contains ":" t = true) opts →
    parse_dispatch_opts_from m opts
    = Ok (foldl (fun acc t => <[before_first ":" t := after_first ":" t]> acc) m opts).
Proof.
  induction opts as [|t opts IH]; intros m Hwf; simpl; [done|].
  inversion Hwf as [|? ? Ht Hrest]; subst.
  rewrite (parse_dispatch_opt_first_colon _ Ht). by apply IH.
Qed.

Lemma foldl_insert_other (opts : list string) (key : string) :
  ∀ m : gmap string string,
    Forall (fun t => before_first ":" t ≠ key) opts →
    foldl (fun acc t => <[before_first ":" t := after_first ":" t]> acc) m opts !! key
    = m !! key.
Proof.
  induction opts as [|t opts IH]; intros m Hne; simpl; [done|].
  inversion Hne as [|? ? Ht Hrest]; subst.
  rewrite (IH _ Hrest). by apply lookup_insert_ne.
Qed.

Lemma foldl_insert_last (pre post : list string) (tok : string)
    (m : gmap string string) :
  Forall (fun t => before_first ":" t ≠ before_first ":" tok) post →
  foldl (fun acc t => <[before_first ":" t := after_first ":" t]> acc) m
        (pre ++ tok :: post) !! before_first ":" tok
  = Some (after_first ":" tok).
Proof.
  intros Hpost. rewrite foldl_app. simpl.
  rewrite (foldl_insert_other _ _ _ Hpost). apply lookup_insert_eq.
Qed.

(** A token without a colon stops the loop with the exception of line 42,
    whatever came before it. *)
Lemma parse_dispatch_opts_from_colonless (opts : list string) (t : string) :
  ∀ m : gmap string string,
    t ∈ opts → PyStr.contains ":" t = false →
    parse_dispatch_opts_from m opts = Raise (ExceptionOf "Exception" err_msg).
Proof.
  induction opts as [|u opts IH]; intros m Hin Ht; [by apply elem_of_nil in Hin|].
  simpl. destruct (PyStr.contains ":" u) eqn:Hu.
  - rewrite (parse_dispatch_opt_first_colon _ Hu).
    apply elem_of_cons in Hin as [->|Hin]; [congruence|]. by apply IH.
  - by rewrite (parse_dispatch_opt_no_colon _ Hu).
Qed.

(** ** The argument parser *)

Ltac run_step :=
  unfold bind, ret, raise, lift, emit, get_fs, put_fs, get_DEBUG, set_DEBUG,
    set_VERBOSE, sys_exit, parser_error, logged in *; simpl in *.

Ltac unfold_validators := unfold directory_path, dispatch_file; cbv zeta.
Ltac unfold_parse_cmd_line := unfold parse_cmd_line.
Ltac unfold_parse_cmd_line_in H := unfold parse_cmd_line in H.
Ltac step_consume := cbn [consume].

Section ParserFacts.

Variable resolve : string → string.

Local Abbreviation directory_path := (directory_path resolve).
Local Abbreviation dispatch_file := (dispatch_file resolve).
Local Abbreviation consume := (consume resolve).
Local Abbreviation parse_cmd_line := (parse_cmd_line resolve).

Lemma convert_directory_path flag files value st :
  convert flag (directory_path files templates_error_message value) st
  = if path_exists files (resolve (Path value))
       && path_is_dir files (resolve (Path value))
    then (Ok (Path value), st)
    else (Raise (SystemExit 2),
          logged st [UsageError ("argument " ++ flag ++ ": " ++ templates_error_message)]).
Proof.
  unfold_validators.
  destruct (path_exists files (resolve (Path value))
            && path_is_dir files (resolve (Path value))); reflexivity.
Qed.

Lemma convert_dispatch_file flag files value st :
  convert flag (dispatch_file files dispatch_error_message value) st
  = if path_exists files (resolve (Path value))
       && str_in ".py" (path_suffixes (Path value))
    then (Ok (Path value), st)
    else (Raise (SystemExit 2),
          logged st [UsageError ("argument " ++ flag ++ ": " ++ dispatch_error_message)]).
Proof.
  unfold_validators.
  destruct (path_exists files (resolve (Path value))
            && str_in ".py" (path_suffixes (Path value))); reflexivity.
Qed.

(** What consuming the command line can do: it never touches the
    filesystem; when it goes through it has logged nothing and has
    collected the [--dispatch-opt] values in order; otherwise it has
    logged one message and raised [SystemExit]. *)
Lemma consume_outcome (argv : list cli_arg) :
  ∀ ns extras st r st',
    consume argv ns extras st = (r, st') →
    fs st' = fs st
    ∧ match r with
      | Ok (ns', _) =>
          trace st' = trace st
          ∧ ns_dispatch_opts ns' = (ns_dispatch_opts ns ++ opt_values argv)%list
      | Raise e =>
          ∃ ev code, trace st' = (trace st ++ [ev])%list ∧ e = SystemExit code
                     ∧ is_ExecModule ev = false ∧ is_CallDispatch ev = false
      end.
Proof.
  induction argv as [|a argv IH]; intros ns extras st r st' H.
  - simpl in H. run_step. inversion H; subst. by rewrite app_nil_r.
  - destruct a as [| | | |value|value|value|flag|text]; simpl in H.
    + run_step. inversion H; subst. simpl. eauto 10.
    + run_step. inversion H; subst. simpl. eauto 10.
    + unfold bind at 1 in H. simpl in H. apply IH in H as [Hfs Hr]. simpl in *.
      split; [done|]. destruct r as [[ns' ?]|e]; simpl in *; done.
    + unfold bind at 1 in H. simpl in H. apply IH in H as [Hfs Hr]. simpl in *.
      split; [done|]. destruct r as [[ns' ?]|e]; simpl in *; done.
    + unfold bind at 1 in H. unfold get_fs in H. unfold bind at 1 in H.
      rewrite convert_directory_path in H.
      destruct (path_exists (fs st) (resolve (Path value))
                && path_is_dir (fs st) (resolve (Path value))).
      * apply IH in H as [Hfs Hr]. split; [done|].
        destruct r as [[ns' ?]|e]; simpl in *; done.
      * inversion H; subst. simpl. eauto 10.
    + unfold bind at 1 in H. unfold get_fs in H. unfold bind at 1 in H.
      rewrite convert_dispatch_file in H.
      destruct (path_exists (fs st) (resolve (Path value))
                && str_in ".py" (path_suffixes (Path value))).
      * apply IH in H as [Hfs Hr]. split; [done|].
        destruct r as [[ns' ?]|e]; simpl in *; done.
      * inversion H; subst. simpl. eauto 10.
    + apply IH in H as [Hfs Hr]. split; [done|].
      destruct r as [[ns' ?]|e]; simpl in *; [|done].
      destruct Hr as [Ht Ho]. split; [done|]. by rewrite Ho, <- app_assoc.
    + run_step. inversion H; subst. simpl. eauto 10.
    + apply IH in H as [Hfs Hr]. split; [done|].
      destruct r as [[ns' ?]|e]; simpl in *; done.
Qed.

Lemma parse_cmd_line_outcome (argv : list cli_arg) st r st' :
  parse_cmd_line argv st = (r, st') →
  fs st' = fs st
  ∧ match r with
    | Ok args => trace st' = trace st ∧ dispatch_opts args = opt_values argv
    | Raise e =>
        ∃ ev code, trace st' = (trace st ++ [ev])%list ∧ e = SystemExit code
                   ∧ is_ExecModule ev = false ∧ is_CallDispatch ev = false
    end.
Proof.
  unfold_parse_cmd_line. unfold bind. intros H.
  destruct (consume argv initial_namespace [] st) as [[[ns extras]|e] st1] eqn:Hc;
    apply consume_outcome in Hc as [Hfs Hr]; simpl in *.
  - destruct Hr as [Htr Hopts].
    destruct (ns_templates ns), (ns_dispatch ns); try destruct extras;
      run_step; inversion H; subst; simpl; rewrite ?Hfs, ?Htr; eauto 10.
  - inversion H; subst. done.
Qed.

(** From a fresh process, a command line that parses leaves the state
    as it was, but for the two globals. *)
Lemma parse_cmd_line_boot argv files args st1 :
  parse_cmd_line argv (boot files) = (Ok args, st1) →
  fs st1 = files ∧ trace st1 = [] ∧ dispatch_opts args = opt_values argv.
Proof. intros H. by apply parse_cmd_line_outcome in H as (? & ? & ?). Qed.

End ParserFacts.

(** ** The render loop and [main] *)

Lemma logged_logged st evs evs' :
  logged (logged st evs) evs' = logged st (evs ++ evs').
Proof. unfold logged. simpl. by rewrite app_assoc. Qed.

Lemma trace_logged st evs : trace (logged st evs) = (trace st ++ evs)%list.
Proof. reflexivity. Qed.

Lemma fs_logged st evs : fs (logged st evs) = fs st.
Proof. reflexivity. Qed.

Lemma fs_loaded args st : fs (loaded args st) = fs st.
Proof. reflexivity. Qed.

Ltac no_such_event :=
  let Hin := fresh "Hin" in
  intros Hin;
  repeat (apply elem_of_cons in Hin as [Hin|Hin]; [discriminate|]);
  by apply elem_of_nil in Hin.

(** Loading the extension logs neither a call of the entry point nor a
    parser error. *)
Lemma loaded_events args st :
  trace st = [] →
  (∀ kw, CallDispatch kw ∉ trace (loaded args st))
  ∧ (∀ message, UsageError message ∉ trace (loaded args st))
  ∧ ExecModule (dispatch args) ∈ trace (loaded args st).
Proof.
  intros Htr. unfold loaded, logged. simpl. rewrite Htr.
  destruct (DEBUG st); simpl; repeat split; try (intros ?; no_such_event).
  - apply elem_of_cons. right. by apply list_elem_of_singleton.
  - by apply list_elem_of_singleton.
Qed.

Ltac unfold_render_one :=
  unfold render_one, get_template, open_w, render_template, write_text, logged.
Ltac unfold_main_from :=
  unfold main_from, dprint, load_dispatcher, call_dispatch, loaded, logged.
Ltac unfold_run := unfold run, dunder_main.
Ltac unfold_apply_writes := unfold apply_writes.
Ltac unfold_last_written := unfold last_written.
Ltac step_rendered_texts_in H := cbn [rendered_texts] in H.
Ltac step_rendered_texts := cbn [rendered_texts].

Section ProgramFacts.

Variable resolve : string → string.
Variable engine : Engine.
Variable exec_module : gmap string node → string → result module.
Variable open_error : gmap string node → string → option exn.

Local Abbreviation parse_cmd_line := (parse_cmd_line resolve).
Local Abbreviation template_source := (template_source resolve).
Local Abbreviation apply_writes := (apply_writes resolve).
Local Abbreviation last_written := (last_written resolve).
Local Abbreviation rendered_texts := (rendered_texts resolve engine open_error).
Local Abbreviation render_one := (render_one resolve engine open_error).
Local Abbreviation render_loop := (render_loop resolve engine open_error).
Local Abbreviation main_from := (main_from resolve engine exec_module open_error).
Local Abbreviation main := (main resolve engine exec_module open_error).
Local Abbreviation dunder_main := (dunder_main resolve engine exec_module open_error).
Local Abbreviation run := (run resolve engine exec_module open_error).

(** One pass of the loop body, step by step. *)
Lemma render_one_steps searchpath tname context output_file st :
  render_one searchpath (tname, context, output_file) st
  = match template_source (fs st) searchpath tname with
    | Some source =>
        match compile engine source with
        | Raise e => (Raise e, logged st [GetTemplate tname])
        | Ok t =>
            match open_error (fs st) output_file with
            | Some e => (Raise e, logged st [GetTemplate tname; OpenW output_file])
            | None =>
                match render engine t context with
                | Raise e =>
                    (Raise e,
                     mkState (<[resolve output_file := File EmptyString]> (fs st))
                       (DEBUG st) (VERBOSE st)
                       (trace st ++ [GetTemplate tname; OpenW output_file;
                                     Render tname]))
                | Ok text =>
                    (Ok tt,
                     mkState (<[resolve output_file := File text]> (fs st))
                       (DEBUG st) (VERBOSE st)
                       (trace st ++ [GetTemplate tname; OpenW output_file;
                                     Render tname; WriteText output_file text]))
                end
            end
        end
    | None => (Raise (ExceptionOf "TemplateNotFound" tname), logged st [GetTemplate tname])
    end.
Proof.
  unfold_render_one.
  run_step.
  destruct (template_source (fs st) searchpath tname) as [source|]; try done.
  destruct (compile engine source) as [t|e]; try done. simpl.
  destruct (open_error (fs st) output_file) as [e|]; simpl.
  { by rewrite <- app_assoc. }
  destruct (render engine t context) as [text|e]; simpl.
  - rewrite insert_insert_eq. by rewrite <- !app_assoc.
  - by rewrite <- !app_assoc.
Qed.

(** [main] after the command line is parsed, step by step. *)
Lemma main_from_steps args st :
  main_from args st
  = match exec_module (fs st) (dispatch args) with
    | Raise e => (Raise e, loaded args st)
    | Ok dispatcher =>
        match parse_dispatch_opts (dispatch_opts args) with
        | Raise e => (Raise e, loaded args st)
        | Ok dispatch_args =>
            match dispatch_attr dispatcher with
            | None => (Raise (ExceptionOf "AttributeError" "dispatch"), loaded args st)
            | Some entry =>
                match entry dispatch_args with
                | Raise e =>
                    (Raise e, logged (loaded args st) [CallDispatch dispatch_args])
                | Ok g =>
                    (let* _ := render_loop (templates args) g in ret 0%Z)
                      (logged (loaded args st) [CallDispatch dispatch_args])
                end
            end
        end
    end.
Proof.
  unfold_main_from.
  run_step.
  destruct (DEBUG st) eqn:HD; simpl; rewrite ?HD; simpl;
    (destruct (exec_module (fs st) (dispatch args)) as [dispatcher|e1];
     simpl; rewrite ?HD, <- ?app_assoc; simpl; [|done]);
    (destruct (parse_dispatch_opts (dispatch_opts args)) as [kw|e2];
     simpl; rewrite ?HD; [|done]);
    (destruct (dispatch_attr dispatcher) as [entry|];
     simpl; rewrite ?HD; [|done]);
    destruct (entry kw) as [g|e3];
    simpl; rewrite ?HD, <- ?app_assoc; simpl; done.
Qed.


Lemma main_steps argv st :
  main argv st
  = match parse_cmd_line argv st with
    | (Ok args, st1) => main_from args st1
    | (Raise e, st1) => (Raise e, st1)
    end.
Proof.
  unfold main, main. unfold bind.
  by destruct (parse_cmd_line argv st) as [[args|e] st1].
Qed.

(** The [__main__] block read off the outcome of [main]. *)
Lemma run_of_main argv st :
  run argv st
  = match main argv st with
    | (Ok _, st') => (0%Z, st')
    | (Raise (SystemExit _), st') => (0%Z, st')
    | (Raise KeyboardInterrupt, st') =>
        (1%Z, logged st' [Print "...interrupted by user, exiting."])
    | (Raise (ExceptionOf cls msg), st') =>
        (1%Z, logged st' [Traceback (ExceptionOf cls msg)])
    | (Raise (BaseExceptionOf cls), st') =>
        (1%Z, logged st' [Traceback (BaseExceptionOf cls)])
    end.
Proof.
  unfold_run. unfold bind, sys_exit, raise, emit.
  destruct (main argv st) as [[status|[code| |cls msg|cls]] st']; reflexivity.
Qed.

Lemma opened_paths_app tr tr' :
  opened_paths (tr ++ tr') = (opened_paths tr ++ opened_paths tr')%list.
Proof.
  induction tr as [|ev tr IH]; simpl; [done|].
  destruct ev; simpl; by rewrite ?IH.
Qed.

Lemma written_files_app tr tr' :
  written_files (tr ++ tr') = (written_files tr ++ written_files tr')%list.
Proof.
  induction tr as [|ev tr IH]; simpl; [done|].
  destruct ev; simpl; by rewrite ?IH.
Qed.

(** A pass that goes through has done its four steps in order and has
    left the rendered text in the output file. *)
Lemma render_one_ok searchpath item st st1 :
  render_one searchpath item st = (Ok tt, st1) →
  ∃ text,
    st1 = mkState (<[resolve (output_of item) := File text]> (fs st))
            (DEBUG st) (VERBOSE st)
            (trace st ++ [GetTemplate (tname_of item); OpenW (output_of item);
                          Render (tname_of item); WriteText (output_of item) text]).
Proof.
  destruct item as [[tname context] output_file]. rewrite render_one_steps.
  unfold tname_of, output_of. simpl. intros H.
  destruct (template_source (fs st) searchpath tname) as [source|]; try done.
  destruct (compile engine source) as [t|e]; try done.
  destruct (open_error (fs st) output_file) as [e|]; try done.
  destruct (render engine t context) as [text|e]; try done.
  inversion H; subst. by exists text.
Qed.

(** Whatever a pass does, it logs loop events only. *)
Lemma render_one_events searchpath item st :
  ∃ evs, trace (render_one searchpath item st).2 = (trace st ++ evs)%list
         ∧ forallb loop_event evs = true.
Proof.
  destruct item as [[tname context] output_file]. rewrite render_one_steps.
  destruct (template_source (fs st) searchpath tname) as [source|];
    [|by eexists; split].
  destruct (compile engine source) as [t|e]; [|by eexists; split].
  destruct (open_error (fs st) output_file) as [e|]; [by eexists; split|].
  destruct (render engine t context) as [text|e]; by eexists; split.
Qed.

Lemma render_loop_events searchpath g :
  ∀ st, ∃ evs, trace (render_loop searchpath g st).2 = (trace st ++ evs)%list
               ∧ forallb loop_event evs = true.
Proof.
  induction g as [|e|item rest IH]; intros st; simpl.
  - exists []. by rewrite app_nil_r.
  - exists []. by rewrite app_nil_r.
  - unfold bind.
    destruct (render_one_events searchpath item st) as (evs & Htr & Hq).
    destruct (render_one searchpath item st) as [[[]|e] st1]; simpl in *.
    + destruct (IH st1) as (evs' & Htr' & Hq').
      exists (evs ++ evs')%list. rewrite Htr', Htr, app_assoc. split; [done|].
      rewrite forallb_app. by rewrite Hq, Hq'.
    + by exists evs.
Qed.


Lemma loop_event_not_call evs kw :
  forallb loop_event evs = true → CallDispatch kw ∉ evs.
Proof.
  intros Hq Hin. rewrite forallb_forall in Hq.
  apply list_elem_of_In, Hq in Hin. discriminate.
Qed.

(** ** Claims about the dispatch options in [main] *)

(** C9: when a key occurs in several [--dispatch-opt] tokens, the
    dictionary handed to the entry point has one entry for it, holding
    the value of the last of these tokens on the command line; the
    entry point is called with that dictionary and with no other. *)
Theorem last_dispatch_opt_wins (argv : list cli_arg) (files : gmap string node)
    (pre post : list string) (tok key : string)
    (args : Args) (st1 : state) (dispatcher : module)
    (entry : gmap string string → result generator) :
  opt_values argv = (pre ++ tok :: post)%list →
  Forall (fun t => PyStr.contains ":" t = true) (pre ++ tok :: post) →
  before_first ":" tok = key →
  Forall (fun t => before_first ":" t ≠ key) post →
  parse_cmd_line argv (boot files) = (Ok args, st1) →
  exec_module files (dispatch args) = Ok dispatcher →
  dispatch_attr dispatcher = Some entry →
  ∃ m : gmap string string,
    parse_dispatch_opts (opt_values argv) = Ok m
    ∧ m !! key = Some (after_first ":" tok)
    ∧ (∀ v, (key, v) ∈ map_to_list m → v = after_first ":" tok)
    ∧ NoDup (map_to_list m).*1
    ∧ CallDispatch m ∈ trace (main argv (boot files)).2
    ∧ ∀ kw, CallDispatch kw ∈ trace (main argv (boot files)).2 → kw = m.
Proof.
  intros Hopts Hwf Hkey Hpost Hparse Hexec Hattr.
  destruct (parse_cmd_line_boot _ _ _ _ _ Hparse) as (Hfs & Htr & Hargs).
  unfold parse_dispatch_opts. rewrite Hopts.
  rewrite (parse_dispatch_opts_from_fold _ _ Hwf).
  subst key. pose proof (foldl_insert_last pre post tok ∅ Hpost) as Hm.
  set (kwargs := foldl (fun acc t => <[before_first ":" t := after_first ":" t]> acc)
                   ∅ (pre ++ tok :: post)) in *.
  exists kwargs. split; [done|].
  split; [done|]. split.
  { intros v Hv. apply elem_of_map_to_list in Hv. congruence. }
  split; [apply NoDup_fst_map_to_list|].
  rewrite main_steps, Hparse, main_from_steps, Hfs, Hexec, Hargs, Hopts.
  unfold parse_dispatch_opts.
  rewrite (parse_dispatch_opts_from_fold _ _ Hwf), Hattr. fold kwargs.
  destruct (loaded_events args st1 Htr) as (Hnocall & _ & _).
  destruct (entry kwargs) as [g|e]; cbn [snd].
  - unfold bind.
    destruct (render_loop_events (templates args) g
                (logged (loaded args st1) [CallDispatch kwargs]))
      as (evs & Hevs & Hq).
    destruct (render_loop (templates args) g
                (logged (loaded args st1) [CallDispatch kwargs]))
      as [[[]|e] st2]; cbn [snd] in Hevs; simpl; rewrite Hevs, trace_logged.
    all: split;
      [ rewrite !elem_of_app; left; right; by apply list_elem_of_singleton
      | intros kw; rewrite !elem_of_app, list_elem_of_singleton;
        intros [[Hin|Hin]|Hin];
        [ by destruct (Hnocall kw)
        | congruence
        | by destruct (loop_event_not_call _ kw Hq) ] ].
  - rewrite trace_logged. split.
    + rewrite !elem_of_app. right. by apply list_elem_of_singleton.
    + intros kw. rewrite !elem_of_app, list_elem_of_singleton.
      intros [Hin|Hin]; [by destruct (Hnocall kw)|congruence].
Qed.

(** C7: a [--dispatch-opt] token without a colon always makes the loop
    raise; [main] then ends with an exception, which is the one of
    line 42 whenever the extension could be loaded, and the entry point
    is not called at all. *)
Theorem colonless_dispatch_opt_raises (argv : list cli_arg)
    (files : gmap string node) (t : string) :
  t ∈ opt_values argv →
  PyStr.contains ":" t = false →
  (∀ m, parse_dispatch_opts_from m (opt_values argv)
        = Raise (ExceptionOf "Exception" err_msg))
  ∧ (∃ e, (main argv (boot files)).1 = Raise e)
  ∧ (∀ kw, CallDispatch kw ∉ trace (main argv (boot files)).2)
  ∧ (∀ args st1 dispatcher,
       parse_cmd_line argv (boot files) = (Ok args, st1) →
       exec_module files (dispatch args) = Ok dispatcher →
       (main argv (boot files)).1 = Raise (ExceptionOf "Exception" err_msg)).
Proof.
  intros Hin Ht.
  assert (Hloop : ∀ m, parse_dispatch_opts_from m (opt_values argv)
                       = Raise (ExceptionOf "Exception" err_msg)).
  { intros m. by apply (parse_dispatch_opts_from_colonless _ t). }
  split; [done|].
  rewrite main_steps.
  destruct (parse_cmd_line argv (boot files)) as [[args|e] st1] eqn:Hparse.
  - destruct (parse_cmd_line_boot _ _ _ _ _ Hparse) as (Hfs & Htr & Hargs).
    rewrite main_from_steps, Hfs, Hargs. unfold parse_dispatch_opts. rewrite Hloop.
    repeat split.
    + destruct (exec_module files (dispatch args)); eauto.
    + intros kw. destruct (loaded_events args st1 Htr) as (Hnocall & _ & _).
      destruct (exec_module files (dispatch args)); cbn [snd]; apply Hnocall.
    + intros args' st1' dispatcher [= <- <-] Hexec. by rewrite Hexec.
  - apply parse_cmd_line_outcome in Hparse as (Hfs & ev & code & Htr & -> & _ & Hev).
    repeat split; simpl.
    + eauto.
    + intros kw. rewrite Htr. simpl. intros Hin'.
      apply list_elem_of_singleton in Hin'. by subst ev.
    + intros ? ? ? [=].
Qed.


(** ** Claims about the render loop *)

Lemma render_loop_yield searchpath item rest st :
  render_loop searchpath (GYield item rest) st
  = match render_one searchpath item st with
    | (Ok _, st1) => render_loop searchpath rest st1
    | (Raise e, st1) => (Raise e, st1)
    end.
Proof. reflexivity. Qed.

(** Instructions that all go through: the loop goes on with what
    follows them, having opened and written their output files in the
    order they were yielded. *)
Lemma render_loop_prefix searchpath (prefix : list instruction) :
  ∀ st st_k after,
    render_loop searchpath (yields prefix GStop) st = (Ok tt, st_k) →
    render_loop searchpath (yields prefix after) st = render_loop searchpath after st_k
    ∧ ∃ evs, trace st_k = (trace st ++ evs)%list
             ∧ opened_paths evs = map output_of prefix
             ∧ (written_files evs).*1 = map output_of prefix.
Proof.
  induction prefix as [|item prefix IH]; intros st st_k after H; simpl in *.
  - unfold ret in H. inversion H; subst. split; [done|].
    exists []. by rewrite app_nil_r.
  - unfold bind in *.
    destruct (render_one searchpath item st) as [[[]|e] st1] eqn:Hone; [|done].
    destruct (render_one_ok _ _ _ _ Hone) as [text ->].
    destruct (IH _ _ after H) as (Hloop & evs & Htr & Hopen & Hwritten).
    split; [done|]. simpl in Htr.
    eexists. split; [by rewrite Htr, <- app_assoc|].
    simpl. split; f_equal; [exact Hopen|exact Hwritten].
Qed.

(** C4, as the code has it: the template is looked up and compiled
    first, so a missing template or a syntax error leaves the output
    file alone; the output file is then opened, which creates or empties
    it, and only then is the template rendered and the text written.  A
    failure while rendering stops the loop and leaves the output file of
    that instruction created or emptied. *)
Theorem render_after_open (searchpath tname : string)
    (context : gmap string value) (output_file : string) (st : state) :
  open_error (fs st) output_file = None →
  match template_source (fs st) searchpath tname with
  | Some source =>
      match compile engine source with
      | Raise e =>
          render_one searchpath (tname, context, output_file) st
          = (Raise e, logged st [GetTemplate tname])
      | Ok t =>
          match render engine t context with
          | Raise e =>
              ∃ st',
                render_one searchpath (tname, context, output_file) st = (Raise e, st')
                ∧ fs st' = <[resolve output_file := File EmptyString]> (fs st)
                ∧ trace st' = (trace st ++ [GetTemplate tname; OpenW output_file;
                                            Render tname])%list
                ∧ ∀ rest, render_loop searchpath
                            (GYield (tname, context, output_file) rest) st
                          = (Raise e, st')
          | Ok text =>
              ∃ st',
                render_one searchpath (tname, context, output_file) st = (Ok tt, st')
                ∧ fs st' = <[resolve output_file := File text]> (fs st)
                ∧ trace st' = (trace st ++ [GetTemplate tname; OpenW output_file;
                                            Render tname;
                                            WriteText output_file text])%list
          end
      end
  | None =>
      render_one searchpath (tname, context, output_file) st
      = (Raise (ExceptionOf "TemplateNotFound" tname), logged st [GetTemplate tname])
  end.
Proof.
  intros Hopen.
  pose proof (render_one_steps searchpath tname context output_file st) as Hsteps.
  destruct (template_source (fs st) searchpath tname) as [source|]; try done.
  rewrite Hopen in Hsteps.
  destruct (compile engine source) as [t|e]; [|done].
  destruct (render engine t context) as [text|e].
  - eexists. split; [exact Hsteps|]. done.
  - eexists. split; [exact Hsteps|]. repeat split.
    intros rest. by rewrite render_loop_yield, Hsteps.
Qed.

Lemma opened_paths_pass_events (items : list instruction) :
  ∀ writes : list (string * string),
    writes.*1 = map output_of items →
    opened_paths (pass_events items writes) = map output_of items
    ∧ written_files (pass_events items writes) = writes.
Proof.
  induction items as [|item items IH]; intros [|[path text] writes] Hw;
    try discriminate; [done|].
  simpl in Hw. injection Hw as Hpath Hw. destruct (IH _ Hw) as [Ho Hwr].
  simpl. rewrite Ho, Hwr, Hpath. done.
Qed.

Lemma apply_writes_snoc files writes w :
  apply_writes files (writes ++ [w])
  = <[resolve w.1 := File w.2]> (apply_writes files writes).
Proof. unfold_apply_writes. by rewrite foldl_app. Qed.

Lemma last_written_snoc writes w place :
  last_written (writes ++ [w]) place
  = if String.eqb (resolve w.1) place then Some w.2 else last_written writes place.
Proof. unfold_last_written. by rewrite foldl_app. Qed.

(** What is found at a place once the given files were written: the
    text last written there, or what was there before. *)
Lemma apply_writes_lookup files writes place :
  apply_writes files writes !! place
  = match last_written writes place with
    | Some text => Some (File text)
    | None => files !! place
    end.
Proof.
  induction writes as [|w writes IH] using rev_ind; [done|].
  rewrite apply_writes_snoc, last_written_snoc.
  destruct (String.eqb (resolve w.1) place) eqn:E.
  - apply String.eqb_eq in E as <-. apply lookup_insert_eq.
  - apply String.eqb_neq in E. by rewrite lookup_insert_ne.
Qed.

Lemma last_written_is_Some writes path :
  path ∈ writes.*1 → is_Some (last_written writes (resolve path)).
Proof.
  induction writes as [|w writes IH] using rev_ind;
    [intros H; by apply elem_of_nil in H|].
  rewrite fmap_app, elem_of_app, last_written_snoc. intros [Hin|Hin].
  - destruct (String.eqb (resolve w.1) (resolve path)); [by eexists|by apply IH].
  - apply list_elem_of_singleton in Hin as ->. rewrite String.eqb_refl. by eexists.
Qed.

(** Instructions that can all be rendered go through the loop: it goes
    on with what follows them, having done the four steps of each in
    turn and left the rendered texts in the output files. *)
Lemma render_loop_rendered searchpath (items : list instruction) :
  ∀ st writes after,
    rendered_texts searchpath (fs st) items = Some writes →
    writes.*1 = map output_of items
    ∧ render_loop searchpath (yields items after) st
      = render_loop searchpath after
          (mkState (apply_writes (fs st) writes) (DEBUG st) (VERBOSE st)
                   (trace st ++ pass_events items writes)).
Proof.
  induction items as [|[[tname context] output_file] items IH];
    intros st writes after H.
  - injection H as <-. split; [done|]. destruct st. simpl. by rewrite app_nil_r.
  - cbn [yields]. rewrite render_loop_yield, render_one_steps.
    step_rendered_texts_in H.
    destruct (template_source (fs st) searchpath tname) as [source|]; [|done].
    destruct (compile engine source) as [t|e]; [|done].
    destruct (open_error (fs st) output_file) as [e|]; [done|].
    destruct (render engine t context) as [text|e]; [|done].
    destruct (rendered_texts searchpath (<[resolve output_file := File text]> (fs st))
                items) as [writes'|] eqn:Hrest; [|done].
    injection H as <-.
    destruct (IH (mkState (<[resolve output_file := File text]> (fs st))
                    (DEBUG st) (VERBOSE st)
                    (trace st ++ [GetTemplate tname; OpenW output_file;
                                  Render tname; WriteText output_file text]))
                 writes' after Hrest) as [Hw Hloop].
    split; [cbn [fmap list_fmap map]; by rewrite <- Hw|].
    rewrite Hloop. cbn [fs DEBUG VERBOSE trace pass_events].
    unfold tname_of, output_of. simpl. by rewrite <- app_assoc.
Qed.

(** Conversely, instructions that all went through the loop could all
    be rendered. *)
Lemma render_loop_through searchpath (items : list instruction) :
  ∀ st st',
    render_loop searchpath (yields items GStop) st = (Ok tt, st') →
    is_Some (rendered_texts searchpath (fs st) items).
Proof.
  induction items as [|[[tname context] output_file] items IH]; intros st st' H;
    [by eexists|].
  cbn [yields] in H. rewrite render_loop_yield, render_one_steps in H.
  step_rendered_texts.
  destruct (template_source (fs st) searchpath tname) as [source|]; [|done].
  destruct (compile engine source) as [t|e]; [|done].
  destruct (open_error (fs st) output_file) as [e|]; [done|].
  destruct (render engine t context) as [text|e]; [|done].
  destruct (IH _ _ H) as [writes Hwrites]. cbn [fs] in Hwrites.
  rewrite Hwrites. by eexists.
Qed.

(** C5: the entry point yields at least [k] instructions, the [k-1]
    earlier ones can all be rendered, and the template of instruction
    [k] is not in the template directory when it is asked for.  Then the
    run opens and writes exactly the output files of the [k-1] earlier
    instructions, in the order yielded, each with the text the engine
    rendered for it; at the end each of these files holds the text last
    written to it; for instruction [k] the template is asked for and
    nothing else is done, so that its output file, unless it is one of
    the earlier ones, is neither created nor emptied; for later
    instructions nothing is done at all; the error trace is printed and
    the exit status is 1. *)
Theorem missing_template_aborts_loop (argv : list cli_arg)
    (files : gmap string node) (args : Args) (st1 : state) (dispatcher : module)
    (entry : gmap string string → result generator) (kw : gmap string string)
    (prefix : list instruction) (item : instruction) (rest : generator)
    (k : nat) (writes : list (string * string)) :
  parse_cmd_line argv (boot files) = (Ok args, st1) →
  exec_module files (dispatch args) = Ok dispatcher →
  parse_dispatch_opts (dispatch_opts args) = Ok kw →
  dispatch_attr dispatcher = Some entry →
  entry kw = Ok (yields prefix (GYield item rest)) →
  k = S (length prefix) →
  rendered_texts (templates args) files prefix = Some writes →
  template_source (apply_writes files writes) (templates args) (tname_of item) = None →
  (run argv (boot files)).1 = 1%Z
  ∧ trace (run argv (boot files)).2
    = (trace (loaded args st1) ++ [CallDispatch kw] ++ pass_events prefix writes
       ++ [GetTemplate (tname_of item);
           Traceback (ExceptionOf "TemplateNotFound" (tname_of item))])%list
  ∧ opened_paths (trace (run argv (boot files)).2) = map output_of prefix
  ∧ written_files (trace (run argv (boot files)).2) = writes
  ∧ writes.*1 = map output_of prefix
  ∧ length writes = k - 1
  ∧ (∀ earlier, earlier ∈ prefix →
       ∃ text,
         last_written writes (resolve (output_of earlier)) = Some text
         ∧ fs (run argv (boot files)).2 !! resolve (output_of earlier)
           = Some (File text))
  ∧ (last_written writes (resolve (output_of item)) = None →
     fs (run argv (boot files)).2 !! resolve (output_of item)
     = files !! resolve (output_of item)).
Proof.
  intros Hparse Hexec Hopts Hattr Hentry Hk Htexts Hmissing.
  destruct (parse_cmd_line_boot _ _ _ _ _ Hparse) as (Hfs & Htr & Hargs).
  destruct (render_loop_rendered (templates args) prefix
              (logged (loaded args st1) [CallDispatch kw]) writes
              (GYield item rest)) as [Hw Hloop].
  { by rewrite fs_logged, fs_loaded, Hfs. }
  rewrite fs_logged, fs_loaded, Hfs in Hloop.
  assert (Hrun : run argv (boot files)
                 = (1%Z,
                    mkState (apply_writes files writes) (DEBUG st1) (VERBOSE st1)
                      (trace (loaded args st1) ++ [CallDispatch kw]
                       ++ pass_events prefix writes
                       ++ [GetTemplate (tname_of item);
                           Traceback (ExceptionOf "TemplateNotFound"
                                        (tname_of item))]))).
  { rewrite run_of_main, main_steps, Hparse, main_from_steps, Hfs, Hexec, Hopts,
      Hattr, Hentry.
    unfold bind at 1. rewrite Hloop, render_loop_yield.
    destruct item as [[tname context] output_file].
    rewrite render_one_steps. unfold tname_of in *. cbn [fs fst snd] in *.
    rewrite Hmissing. unfold logged. simpl. by rewrite <- !app_assoc. }
  rewrite Hrun. cbn [fst snd fs trace].
  destruct (opened_paths_pass_events prefix writes Hw) as [Hopened Hwritten].
  assert (Hpre : opened_paths (trace (loaded args st1)) = []
                 ∧ written_files (trace (loaded args st1)) = []).
  { unfold loaded, logged. simpl. rewrite Htr. by destruct (DEBUG st1). }
  destruct Hpre as [Hpo Hpw].
  rewrite !opened_paths_app, !written_files_app, Hpo, Hpw, Hopened, Hwritten.
  simpl. rewrite !app_nil_r.
  repeat split; try done.
  - rewrite <- (length_fmap fst), Hw, length_map. lia.
  - intros earlier Hin.
    destruct (last_written_is_Some writes (output_of earlier)) as [text Htext].
    { rewrite Hw. apply list_elem_of_fmap. by exists earlier. }
    exists text. split; [done|]. by rewrite apply_writes_lookup, Htext.
  - intros Hnone. by rewrite apply_writes_lookup, Hnone.
Qed.

(** C6: with the template [t.tmpl] holding [Hello {{ name }}] in the
    template directory, an entry point that yields the one instruction
    [("t.tmpl", {"name": "World"}, "out.txt")], and an engine that
    renders this template on this context as [Hello World], the run
    leaves [Hello World] in [out.txt] and exits with status 0. *)
Theorem hello_world_rendered (argv : list cli_arg) (files : gmap string node)
    (args : Args) (st1 : state) (dispatcher : module)
    (entry : gmap string string → result generator) (kw : gmap string string)
    (t : template engine) :
  parse_cmd_line argv (boot files) = (Ok args, st1) →
  exec_module files (dispatch args) = Ok dispatcher →
  parse_dispatch_opts (dispatch_opts args) = Ok kw →
  dispatch_attr dispatcher = Some entry →
  entry kw = Ok (GYield ("t.tmpl", {[ "name" := VStr "World" ]}, "out.txt") GStop) →
  template_source files (templates args) "t.tmpl" = Some "Hello {{ name }}" →
  compile engine "Hello {{ name }}" = Ok t →
  render engine t {[ "name" := VStr "World" ]} = Ok "Hello World" →
  open_error files "out.txt" = None →
  (run argv (boot files)).1 = 0%Z
  ∧ fs (run argv (boot files)).2 !! resolve "out.txt" = Some (File "Hello World")
  ∧ written_files (trace (run argv (boot files)).2) = [("out.txt", "Hello World")].
Proof.
  intros Hparse Hexec Hopts Hattr Hentry Hfile Hcompile Hrender Hopen.
  destruct (parse_cmd_line_boot _ _ _ _ _ Hparse) as (Hfs & Htr & Hargs).
  assert (Hrun : run argv (boot files)
                 = (0%Z,
                    mkState (<[resolve "out.txt" := File "Hello World"]> files)
                      (DEBUG st1) (VERBOSE st1)
                      ((trace (loaded args st1) ++ [CallDispatch kw])
                       ++ [GetTemplate "t.tmpl"; OpenW "out.txt"; Render "t.tmpl";
                           WriteText "out.txt" "Hello World"]))).
  { rewrite run_of_main, main_steps, Hparse, main_from_steps, Hfs, Hexec, Hopts,
      Hattr, Hentry.
    unfold bind at 1. rewrite render_loop_yield, render_one_steps.
    rewrite !fs_logged, fs_loaded, Hfs, Hfile, Hcompile, Hopen, Hrender.
    reflexivity. }
  rewrite Hrun. cbn [fst snd fs trace].
  repeat split.
  - apply lookup_insert_eq.
  - rewrite !written_files_app.
    unfold loaded, logged. simpl. rewrite Htr. by destruct (DEBUG st1).
Qed.


(** ** Claims about the exit status *)

(** C3, as the code has it: the argument parser does not look at the
    [--dispatch-opt] values.  When the command line parses and the
    extension file loads, a token without a colon makes [main] raise
    the exception of line 42 after the extension was loaded and run
    and before its entry point is called; the [__main__] block prints
    the error trace, no usage text is printed, and the exit status
    is 1. *)
Theorem colonless_dispatch_opt_detected_in_main (argv : list cli_arg)
    (files : gmap string node) (t : string) (args : Args) (st1 : state)
    (dispatcher : module) :
  t ∈ opt_values argv →
  PyStr.contains ":" t = false →
  parse_cmd_line argv (boot files) = (Ok args, st1) →
  exec_module files (dispatch args) = Ok dispatcher →
  run argv (boot files)
  = (1%Z, logged (loaded args st1) [Traceback (ExceptionOf "Exception" err_msg)])
  ∧ ExecModule (dispatch args) ∈ trace (run argv (boot files)).2
  ∧ (∀ message, UsageError message ∉ trace (run argv (boot files)).2)
  ∧ (∀ kw, CallDispatch kw ∉ trace (run argv (boot files)).2).
Proof.
  intros Hin Ht Hparse Hexec.
  destruct (parse_cmd_line_boot _ _ _ _ _ Hparse) as (Hfs & Htr & Hargs).
  assert (Hrun : run argv (boot files)
                 = (1%Z, logged (loaded args st1)
                           [Traceback (ExceptionOf "Exception" err_msg)])).
  { rewrite run_of_main, main_steps, Hparse, main_from_steps, Hfs, Hexec, Hargs.
    unfold parse_dispatch_opts.
    by rewrite (parse_dispatch_opts_from_colonless _ t _ Hin Ht). }
  rewrite Hrun. cbn [fst snd]. rewrite trace_logged.
  destruct (loaded_events args st1 Htr) as (Hcall & Husage & Hload).
  repeat split.
  - apply elem_of_app. by left.
  - intros message Hm. apply elem_of_app in Hm as [Hm|Hm]; [by destruct (Husage message)|].
    by apply list_elem_of_singleton in Hm.
  - intros kw Hm. apply elem_of_app in Hm as [Hm|Hm]; [by destruct (Hcall kw)|].
    by apply list_elem_of_singleton in Hm.
Qed.

(** C10: the exit status is 0 whenever [main] returns or ends with a
    [SystemExit], whatever its code, and 1 exactly when [main] ends
    with another exception.  [SystemExit] reaches the handler from
    every place that can raise it: the argument parser (every failure
    of the parser is one), the extension file while it loads, its entry
    point, and the iteration of what the entry point returned. *)
Theorem system_exit_remapped_to_zero (argv : list cli_arg) (st : state) :
  (∀ code, (main argv st).1 = Raise (SystemExit code) → (run argv st).1 = 0%Z)
  ∧ (∀ status, (main argv st).1 = Ok status → (run argv st).1 = 0%Z)
  ∧ ((run argv st).1 = 1%Z
     ↔ ∃ e, (main argv st).1 = Raise e ∧ is_SystemExit e = false)
  ∧ (∀ e st1, parse_cmd_line argv st = (Raise e, st1) → run argv st = (0%Z, st1))
  ∧ (∀ args st1 code,
       parse_cmd_line argv st = (Ok args, st1) →
       exec_module (fs st1) (dispatch args) = Raise (SystemExit code) →
       run argv st = (0%Z, loaded args st1))
  ∧ (∀ args st1 dispatcher kw entry code,
       parse_cmd_line argv st = (Ok args, st1) →
       exec_module (fs st1) (dispatch args) = Ok dispatcher →
       parse_dispatch_opts (dispatch_opts args) = Ok kw →
       dispatch_attr dispatcher = Some entry →
       entry kw = Raise (SystemExit code) →
       run argv st = (0%Z, logged (loaded args st1) [CallDispatch kw]))
  ∧ (∀ args st1 dispatcher kw entry code,
       parse_cmd_line argv st = (Ok args, st1) →
       exec_module (fs st1) (dispatch args) = Ok dispatcher →
       parse_dispatch_opts (dispatch_opts args) = Ok kw →
       dispatch_attr dispatcher = Some entry →
       entry kw = Ok (GRaise (SystemExit code)) →
       run argv st = (0%Z, logged (loaded args st1) [CallDispatch kw])).
Proof.
  repeat split.
  - intros code H. rewrite run_of_main.
    destruct (main argv st) as [r st']. simpl in H. by subst r.
  - intros status H. rewrite run_of_main.
    destruct (main argv st) as [r st']. simpl in H. by subst r.
  - rewrite run_of_main.
    destruct (main argv st) as [[status|[code| |cls msg|cls]] st']; simpl;
      try discriminate; eauto.
  - rewrite run_of_main.
    destruct (main argv st) as [[status|[code| |cls msg|cls]] st']; simpl;
      intros (e & [= <-] & He); done.
  - intros e st1 H. rewrite run_of_main, main_steps, H.
    apply parse_cmd_line_outcome in H as (_ & ev & code & _ & -> & _). done.
  - intros args st1 code Hparse Hexec.
    by rewrite run_of_main, main_steps, Hparse, main_from_steps, Hexec.
  - intros args st1 dispatcher kw entry code Hparse Hexec Hopts Hattr Hentry.
    by rewrite run_of_main, main_steps, Hparse, main_from_steps, Hexec, Hopts,
         Hattr, Hentry.
  - intros args st1 dispatcher kw entry code Hparse Hexec Hopts Hattr Hentry.
    by rewrite run_of_main, main_steps, Hparse, main_from_steps, Hexec, Hopts,
         Hattr, Hentry.
Qed.


(** A [--templates] value that is a file, first on the command line:
    the parser reports it and raises [SystemExit(2)], which the
    [__main__] block turns into status 0; the extension is not
    loaded. *)
Lemma templates_file_rejected (files : gmap string node)
    (value content : string) (rest : list cli_arg) :
  files !! resolve (Path value) = Some (File content) →
  run (ArgTemplates value :: rest) (boot files)
  = (0%Z, logged (boot files)
            [UsageError ("argument --templates: " ++ templates_error_message)]).
Proof.
  intros Hfile. rewrite run_of_main, main_steps.
  unfold_parse_cmd_line. unfold bind at 1. step_consume.
  unfold bind at 1. unfold get_fs. unfold bind at 1.
  rewrite convert_directory_path.
  unfold path_exists, path_is_dir. simpl. by rewrite Hfile.
Qed.

End ProgramFacts.

(** ** Claims about the path validators *)

Lemma str_in_elem_of (x : string) (l : list string) :
  str_in x l = true ↔ x ∈ l.
Proof.
  unfold str_in. rewrite existsb_exists. split.
  - intros (y & Hy & Heq). apply String.eqb_eq in Heq as ->. by apply list_elem_of_In.
  - intros Hin. exists x. split; [by apply list_elem_of_In|apply String.eqb_refl].
Qed.

(** C1, at a failing input: [--templates notes.txt], where [notes.txt]
    is a file.  The parser reports the path with its usage text and the
    extension is not loaded, but the exit status is 0, not the non-zero
    status the claim asks for. *)
Theorem templates_file_exits_zero :
  Demo.run_with [] [ArgTemplates "notes.txt"; ArgDispatch "d.py"]
  = (0%Z,
     logged (boot Demo.files)
       [UsageError "argument --templates: The given path is not a valid template directory."])
  ∧ ∀ path, ExecModule path ∉ trace (Demo.run_with [] [ArgTemplates "notes.txt";
                                                  ArgDispatch "d.py"]).2.
Proof.
  assert (H : Demo.run_with [] [ArgTemplates "notes.txt"; ArgDispatch "d.py"]
              = (0%Z,
                 logged (boot Demo.files)
                   [UsageError "argument --templates: The given path is not a valid template directory."])).
  { unfold Demo.run_with. by rewrite (templates_file_rejected _ _ _ _ _ _ "notes"). }
  split; [exact H|].
  intros path. rewrite H. simpl. no_such_event.
Qed.

(** C8, at a failing input: [--dispatch mod.py.txt], where [mod.py.txt]
    exists.  The name of the file ends in [.txt], not in [.py], and it
    is no module file that the next step of [main] could load; yet
    [dispatch_file] accepts the path, [.py] being among its suffixes, and
    the parser returns it as the dispatch file without any error. *)
Theorem dispatch_accepts_mod_py_txt :
  has_py_suffix "mod.py.txt" = false
  ∧ path_suffixes (Path "mod.py.txt") = [".py"; ".txt"]
  ∧ dispatch_file Demo.resolve Demo.files dispatch_error_message "mod.py.txt"
    = Ok "mod.py.txt"
  ∧ parse_cmd_line Demo.resolve [ArgTemplates "tpl"; ArgDispatch "mod.py.txt"]
      (boot Demo.files)
    = (Ok (mkArgs false false "tpl" "mod.py.txt" []), boot Demo.files).
Proof. repeat split; vm_compute; reflexivity. Qed.

(** On the same input the reading "accepted exactly when the path
    exists and its name ends in [.py]" fails. *)
Lemma dispatch_accepts_inner_py_suffix : ¬ dispatch_accepted_iff_py_suffix.
Proof.
  intros H.
  destruct (proj1 (H Demo.resolve Demo.files dispatch_error_message "mod.py.txt")
              eq_refl) as [_ Hsuffix].
  vm_compute in Hsuffix. discriminate.
Qed.

(** ** The claims on the concrete installation *)

(** C3, counterexample: with [--dispatch-opt verbose] the extension file
    is loaded before the token is looked at, and what is printed is an
    error trace, not the usage text of the parser. *)
Lemma colonless_opt_not_rejected_by_parser :
  ¬ rejected_by_parser_before_load
      (Demo.run_with [Demo.hello] (Demo.argv ++ [ArgDispatchOpt "verbose"])).
Proof.
  assert (H : Demo.run_with [Demo.hello] (Demo.argv ++ [ArgDispatchOpt "verbose"])
              = (1%Z, logged (boot Demo.files)
                        [ExecModule "d.py";
                         Traceback (ExceptionOf "Exception" err_msg)])).
  { vm_compute. reflexivity. }
  rewrite H. intros (_ & _ & Hload). apply (Hload "d.py").
  simpl. apply elem_of_cons. by left.
Qed.

Lemma colonless_dispatch_opt_detected_in_main_witness :
  Demo.run_with [Demo.hello] (Demo.argv ++ map ArgDispatchOpt ["verbose"])
  = (1%Z, logged (loaded (Demo.parsed ["verbose"]) (boot Demo.files))
            [Traceback (ExceptionOf "Exception" err_msg)]).
Proof.
  refine (proj1 (colonless_dispatch_opt_detected_in_main Demo.resolve MiniEngine.engine
                   (Demo.exec [Demo.hello]) MiniEngine.may_open
                   (Demo.argv ++ map ArgDispatchOpt ["verbose"]) Demo.files "verbose"
                   (Demo.parsed ["verbose"]) (boot Demo.files)
                   (MiniEngine.yielding [Demo.hello]) _ eq_refl _ eq_refl)).
  - simpl. by apply list_elem_of_singleton.
  - vm_compute. reflexivity.
Defined.

(** C7 on the same command line: the loop raises and the entry point is
    never called. *)
Lemma colonless_dispatch_opt_raises_witness :
  parse_dispatch_opts ["verbose"] = Raise (ExceptionOf "Exception" err_msg)
  ∧ ∀ kw, CallDispatch kw
          ∉ trace (main Demo.resolve MiniEngine.engine (Demo.exec [Demo.hello]) MiniEngine.may_open
                     (Demo.argv ++ [ArgDispatchOpt "verbose"]) (boot Demo.files)).2.
Proof.
  destruct (colonless_dispatch_opt_raises Demo.resolve MiniEngine.engine (Demo.exec [Demo.hello])
              MiniEngine.may_open (Demo.argv ++ [ArgDispatchOpt "verbose"])
              Demo.files "verbose")
    as (Hloop & _ & Hcall & _).
  - simpl. by apply list_elem_of_singleton.
  - reflexivity.
  - split; [exact (Hloop ∅)|exact Hcall].
Defined.

(** C9 on [--dispatch-opt a:1 --dispatch-opt b:2 --dispatch-opt a:3]. *)
Lemma last_dispatch_opt_wins_witness :
  ∃ m : gmap string string,
    parse_dispatch_opts ["a:1"; "b:2"; "a:3"] = Ok m ∧ m !! "a" = Some "3".
Proof.
  destruct (last_dispatch_opt_wins Demo.resolve MiniEngine.engine (Demo.exec [Demo.hello])
              MiniEngine.may_open
              (Demo.argv ++ map ArgDispatchOpt ["a:1"; "b:2"; "a:3"]) Demo.files
              ["a:1"; "b:2"] [] "a:3" "a"
              (Demo.parsed ["a:1"; "b:2"; "a:3"]) (boot Demo.files)
              (MiniEngine.yielding [Demo.hello])
              (fun _ => Ok (yields [Demo.hello] GStop)))
    as (m & Hm & Hkey & _).
  - reflexivity.
  - repeat constructor.
  - reflexivity.
  - constructor.
  - vm_compute. reflexivity.
  - reflexivity.
  - reflexivity.
  - exists m. split; [exact Hm|exact Hkey].
Defined.

(** C4, counterexample: [user.tmpl] fails while rendering on an empty
    context; by then [report.txt], which held [kept], has been emptied. *)
Lemma render_failure_empties_output :
  ¬ render_failure_leaves_output Demo.resolve MiniEngine.engine MiniEngine.may_open.
Proof.
  intros H.
  specialize (H "tpl" "user.tmpl" ∅ "report.txt" "Dear {{ user.name }}"
                [MiniEngine.Text "Dear "; MiniEngine.Attr "user" "name";
                 MiniEngine.Text EmptyString]
                (ExceptionOf "UndefinedError" "user is undefined")
                (boot Demo.files) eq_refl eq_refl eq_refl).
  vm_compute in H. discriminate.
Qed.

Lemma render_after_open_witness :
  ∃ st',
    render_one Demo.resolve MiniEngine.engine MiniEngine.may_open "tpl" Demo.dear (boot Demo.files)
    = (Raise (ExceptionOf "UndefinedError" "user is undefined"), st')
    ∧ fs st' !! "report.txt" = Some (File EmptyString)
    ∧ trace st' = [GetTemplate "user.tmpl"; OpenW "report.txt"; Render "user.tmpl"].
Proof.
  destruct (render_after_open Demo.resolve MiniEngine.engine MiniEngine.may_open "tpl" "user.tmpl"
              ∅ "report.txt" (boot Demo.files) eq_refl)
    as (st' & Hone & Hfs & Htr & _).
  exists st'. split; [exact Hone|]. split; [|exact Htr].
  rewrite Hfs. reflexivity.
Defined.

(** C5 on an entry point that yields [hello], then an instruction whose
    template is absent, then [hello] again: [k = 2]. *)
Lemma missing_template_aborts_loop_witness :
  (Demo.run_with [Demo.hello; Demo.absent; Demo.hello] Demo.argv).1 = 1%Z
  ∧ opened_paths (trace (Demo.run_with [Demo.hello; Demo.absent; Demo.hello] Demo.argv).2)
    = ["out.txt"]
  ∧ written_files (trace (Demo.run_with [Demo.hello; Demo.absent; Demo.hello] Demo.argv).2)
    = [("out.txt", "Hello World")]
  ∧ fs (Demo.run_with [Demo.hello; Demo.absent; Demo.hello] Demo.argv).2 !! "out.txt"
    = Some (File "Hello World")
  ∧ fs (Demo.run_with [Demo.hello; Demo.absent; Demo.hello] Demo.argv).2 !! "late.txt"
    = None.
Proof.
  destruct (missing_template_aborts_loop Demo.resolve MiniEngine.engine
              (Demo.exec [Demo.hello; Demo.absent; Demo.hello]) MiniEngine.may_open
              Demo.argv Demo.files (Demo.parsed []) (boot Demo.files)
              (MiniEngine.yielding [Demo.hello; Demo.absent; Demo.hello])
              (fun _ => Ok (yields [Demo.hello; Demo.absent; Demo.hello] GStop))
              ∅ [Demo.hello] Demo.absent (GYield Demo.hello GStop) 2
              [("out.txt", "Hello World")])
    as (Hstatus & _ & Hopened & Hwritten & _ & _ & Hfiles & Hlate).
  - vm_compute. reflexivity.
  - reflexivity.
  - reflexivity.
  - reflexivity.
  - reflexivity.
  - reflexivity.
  - vm_compute. reflexivity.
  - vm_compute. reflexivity.
  - split; [exact Hstatus|]. split; [exact Hopened|]. split; [exact Hwritten|].
    split.
    + destruct (Hfiles Demo.hello) as (text & Hlast & Hfile).
      * by apply list_elem_of_singleton.
      * vm_compute in Hlast. injection Hlast as <-. exact Hfile.
    + exact (Hlate eq_refl).
Defined.

(** C6 on the concrete installation, with the small engine. *)
Lemma hello_world_rendered_witness :
  (Demo.run_with [Demo.hello] Demo.argv).1 = 0%Z
  ∧ fs (Demo.run_with [Demo.hello] Demo.argv).2 !! "out.txt" = Some (File "Hello World").
Proof.
  destruct (hello_world_rendered Demo.resolve MiniEngine.engine (Demo.exec [Demo.hello])
              MiniEngine.may_open Demo.argv Demo.files (Demo.parsed []) (boot Demo.files)
              (MiniEngine.yielding [Demo.hello])
              (fun _ => Ok (yields [Demo.hello] GStop)) ∅
              [MiniEngine.Text "Hello "; MiniEngine.Var "name";
               MiniEngine.Text EmptyString])
    as (Hstatus & Hfile & _).
  - vm_compute. reflexivity.
  - reflexivity.
  - reflexivity.
  - reflexivity.
  - reflexivity.
  - reflexivity.
  - reflexivity.
  - reflexivity.
  - reflexivity.
  - split; [exact Hstatus|exact Hfile].
Defined.

(** C10 on three runs: the parser's usage error, an extension file that
    runs [sys.exit(3)] while it loads, and a plain exception. *)
Lemma system_exit_remapped_to_zero_witness :
  (run Demo.resolve MiniEngine.engine (Demo.exec []) MiniEngine.may_open
     [ArgMissingValue "--templates"] (boot Demo.files)).1 = 0%Z
  ∧ (run Demo.resolve MiniEngine.engine (Demo.exec_exits 3) MiniEngine.may_open
       Demo.argv (boot Demo.files)).1 = 0%Z
  ∧ (run Demo.resolve MiniEngine.engine (Demo.exec [Demo.absent]) MiniEngine.may_open
       Demo.argv (boot Demo.files)).1 = 1%Z.
Proof.
  split; [|split].
  - apply (proj1 (system_exit_remapped_to_zero Demo.resolve MiniEngine.engine (Demo.exec [])
                    MiniEngine.may_open [ArgMissingValue "--templates"]
                    (boot Demo.files)) 2%Z).
    reflexivity.
  - apply (proj1 (system_exit_remapped_to_zero Demo.resolve MiniEngine.engine (Demo.exec_exits 3)
                    MiniEngine.may_open Demo.argv (boot Demo.files)) 3%Z).
    reflexivity.
  - apply (proj2 (proj2 (system_exit_remapped_to_zero Demo.resolve MiniEngine.engine
                           (Demo.exec [Demo.absent]) MiniEngine.may_open Demo.argv
                           (boot Demo.files)))).
    exists (ExceptionOf "TemplateNotFound" "absent.tmpl"). split; reflexivity.
Defined.

(** ** Further runs *)

Example split_key_a_b : PyStr.split ":" "key:a:b" = ["key"; "a"; "b"].
Proof. reflexivity. Qed.

Example parse_key_a_b : parse_dispatch_opt "key:a:b" = Ok ("key", "a:b").
Proof. reflexivity. Qed.

Example suffixes_inner : path_suffixes "dir/mod.py.txt" = [".py"; ".txt"].
Proof. reflexivity. Qed.

Example suffixes_hidden : path_suffixes ".py" = [].
Proof. reflexivity. Qed.

(** An entry point that yields nothing: no render, status 0. *)
Example empty_run :
  Demo.run_with [] Demo.argv
  = (0%Z, logged (boot Demo.files) [ExecModule "d.py"; CallDispatch ∅]).
Proof. vm_compute. reflexivity. Qed.

(** [--version] first: the version is printed and the status is 0. *)
Example version_run :
  Demo.run_with [] [ArgVersion; ArgTemplates "nowhere"]
  = (0%Z, logged (boot Demo.files) [Print "skabelon.py 0.1"]).
Proof. vm_compute. reflexivity. Qed.

Example hello_run :
  trace (Demo.run_with [Demo.hello] Demo.argv).2
  = [ExecModule "d.py"; CallDispatch ∅; GetTemplate "t.tmpl"; OpenW "out.txt";
     Render "t.tmpl"; WriteText "out.txt" "Hello World"].
Proof. vm_compute. reflexivity. Qed.

(** The text [pathlib] gives a path. *)
Example path_texts :
  map Path ["tpl/"; "./tpl"; ""; "/"; "//a//b/"; "///a"; "a/../b"]
  = ["tpl"; "tpl"; "."; "/"; "//a/b"; "/a"; "a/../b"].
Proof. reflexivity. Qed.

(** The file a template name stands for. *)
Example template_files :
  map (template_file ".") ["u.tmpl"; "a//b.tmpl"; "../u.tmpl"]
  = [Some "./u.tmpl"; Some "./a/b.tmpl"; None]
  ∧ template_file "/" "u.tmpl" = Some "/u.tmpl".
Proof. split; reflexivity. Qed.

(** The same installation, its paths spelled otherwise. *)
Example spelled_run :
  trace (Demo.run_with [Demo.hello] [ArgTemplates "./tpl/"; ArgDispatch "./d.py"]).2
  = [ExecModule "d.py"; CallDispatch ∅; GetTemplate "t.tmpl"; OpenW "out.txt";
     Render "t.tmpl"; WriteText "out.txt" "Hello World"].
Proof. vm_compute. reflexivity. Qed.

(** With the working directory as template directory, a file written by
    one instruction as [u.tmpl] is the template [u.tmpl] of the next. *)
Example written_then_used :
  written_files
    (trace (run Demo.resolve MiniEngine.engine
              (Demo.exec [("tpl/t.tmpl", {[ "name" := VStr "{{ name }}" ]}, "u.tmpl");
                          ("u.tmpl", {[ "name" := VStr "again" ]}, "out.txt")])
              MiniEngine.may_open [ArgTemplates "."; ArgDispatch "d.py"]
              (boot (<["." := Dir]> Demo.files))).2)
  = [("u.tmpl", "Hello {{ name }}"); ("out.txt", "Hello again")].
Proof. vm_compute. reflexivity. Qed.

(** With a loader for [.py] files only, the run on [mod.py.txt] ends at
    line 34. *)
Example mod_py_txt_run :
  run Demo.resolve MiniEngine.engine Demo.exec_py MiniEngine.may_open
      [ArgTemplates "tpl"; ArgDispatch "mod.py.txt"] (boot Demo.files)
  = (1%Z, logged (boot Demo.files)
            [ExecModule "mod.py.txt";
             Traceback (ExceptionOf "AttributeError"
                          "'NoneType' object has no attribute 'loader'")]).
Proof. vm_compute. reflexivity. Qed.

(** * Further properties *)

(** ** The dispatch options as a whole *)

(** The loop, from any dictionary, builds the dictionary of all tokens
    exactly when every token holds a colon; otherwise it raises the
    exception of line 42, whichever token is at fault, and nothing of
    the dictionary is kept. *)
Theorem dispatch_opts_all_or_nothing (opts : list string) :
  ∀ m : gmap string string,
    parse_dispatch_opts_from m opts
    = if forallb (PyStr.contains ":") opts
      then Ok (foldl (fun acc t => <[before_first ":" t := after_first ":" t]> acc)
                     m opts)
      else Raise (ExceptionOf "Exception" err_msg).
Proof.
  induction opts as [|t opts IH]; intros m; [reflexivity|].
  cbn [parse_dispatch_opts_from forallb foldl].
  destruct (PyStr.contains ":" t) eqn:Ht.
  - rewrite (parse_dispatch_opt_first_colon _ Ht). apply IH.
  - by rewrite (parse_dispatch_opt_no_colon _ Ht).
Qed.

Lemma parse_dispatch_opts_ok_inv (opts : list string) (m0 m : gmap string string) :
  parse_dispatch_opts_from m0 opts = Ok m →
  Forall (fun t => PyStr.contains ":" t = true) opts
  ∧ m = foldl (fun acc t => <[before_first ":" t := after_first ":" t]> acc) m0 opts.
Proof.
  revert m0. induction opts as [|t opts IH]; intros m0 H; simpl in *.
  - split; [constructor|congruence].
  - destruct (PyStr.contains ":" t) eqn:Ht.
    + rewrite (parse_dispatch_opt_first_colon _ Ht) in H.
      destruct (IH _ H) as [Hwf ->]. split; [by constructor|done].
    + by rewrite (parse_dispatch_opt_no_colon _ Ht) in H.
Qed.

Lemma foldl_insert_dom (opts : list string) :
  ∀ m : gmap string string,
    dom (foldl (fun acc t => <[before_first ":" t := after_first ":" t]> acc) m opts)
    = dom m ∪ list_to_set (before_first ":" <$> opts).
Proof.
  induction opts as [|t opts IH]; intros m; simpl.
  - by rewrite (right_id_L ∅ (∪)).
  - rewrite IH, dom_insert_L.
    by rewrite (comm_L (∪) {[before_first ":" t]} (dom m)), <- (assoc_L (∪)).
Qed.

Lemma foldl_insert_size (opts : list string) :
  ∀ m : gmap string string,
    (size (foldl (fun acc t => <[before_first ":" t := after_first ":" t]> acc) m opts)
     ≤ size m + length opts)%nat.
Proof.
  induction opts as [|t opts IH]; intros m; simpl; [lia|].
  etrans; [apply IH|].
  destruct (m !! before_first ":" t) eqn:E.
  - rewrite map_size_insert_Some; [lia|done].
  - rewrite map_size_insert_None; [lia|done].
Qed.

(** The keys of the dictionary are exactly the texts before the first
    colon of the tokens, so it never has more entries than there are
    tokens; without tokens it is empty. *)
Theorem dispatch_opts_keys (opts : list string) (m : gmap string string) :
  parse_dispatch_opts opts = Ok m →
  dom m = list_to_set (before_first ":" <$> opts)
  ∧ (size m ≤ length opts)%nat
  ∧ (opts = [] → m = ∅).
Proof.
  intros H. apply parse_dispatch_opts_ok_inv in H as [_ ->].
  split; [|split].
  - by rewrite foldl_insert_dom, dom_empty_L, (left_id_L ∅ (∪)).
  - pose proof (foldl_insert_size opts ∅) as Hs. by rewrite map_size_empty in Hs.
  - by intros ->.
Qed.

Lemma dispatch_opts_keys_witness :
  ∃ m : gmap string string,
    parse_dispatch_opts ["a:1"; "b:2"; "a:3"] = Ok m
    ∧ dom m = {[ "a"; "b" ]} ∧ (size m ≤ 3)%nat.
Proof.
  exists (<["a" := "3"]> (<["b" := "2"]> (<["a" := "1"]> ∅))).
  destruct (dispatch_opts_keys ["a:1"; "b:2"; "a:3"]
              (<["a" := "3"]> (<["b" := "2"]> (<["a" := "1"]> ∅))) eq_refl)
    as (Hdom & Hsize & _).
  split; [reflexivity|]. split; [|exact Hsize].
  rewrite Hdom. apply (bool_decide_unpack _). vm_compute. exact I.
Defined.

(** ** Path texts *)

Lemma split_without sep s :
  PyStr.contains sep s = false → PyStr.split sep s = [s].
Proof.
  induction s as [|c s IH]; simpl; [done|].
  destruct (Ascii.eqb c sep); [discriminate|].
  intros H. by rewrite (IH H).
Qed.

(** No field of a split holds the separator. *)
Lemma split_fields sep s :
  Forall (fun field => PyStr.contains sep field = false) (PyStr.split sep s).
Proof.
  induction s as [|c s IH]; simpl; [by repeat constructor|].
  destruct (Ascii.eqb c sep) eqn:E; [by constructor|].
  destruct (PyStr.split sep s) as [|f fs].
  - repeat constructor. simpl. by rewrite E.
  - inversion IH; subst. constructor; [|done]. simpl. by rewrite E.
Qed.

(** Splitting what was joined gives the pieces back. *)
Lemma split_join sep (p : string) (ps : list string) :
  Forall (fun field => PyStr.contains sep field = false) (p :: ps) →
  PyStr.split sep (PyStr.join (String sep EmptyString) (p :: ps)) = p :: ps.
Proof.
  revert p. induction ps as [|q ps IH]; intros p Hf.
  - simpl. apply split_without. by inversion Hf.
  - inversion Hf as [|? ? Hp Hrest]; subst.
    change (PyStr.join (String sep EmptyString) (p :: q :: ps))
      with (p ++ String sep (PyStr.join (String sep EmptyString) (q :: ps))).
    rewrite (split_app_sep _ _ _ Hp). f_equal. by apply IH.
Qed.

Lemma path_parts_kept path :
  Forall (fun c => kept_part c = true ∧ PyStr.contains "/" c = false)
         (path_parts path).
Proof.
  unfold path_parts. pose proof (split_fields "/" path) as Hf.
  induction (PyStr.split "/" path) as [|f fs IH]; simpl; [constructor|].
  inversion Hf; subst.
  destruct (kept_part f) eqn:E; [constructor; [done|]|]; by apply IH.
Qed.

Lemma path_parts_root path s :
  path_parts (path_root path ++ s) = path_parts s.
Proof.
  unfold path_root.
  destruct (_ =? 0)%nat; [done|]. by destruct (_ =? 2)%nat.
Qed.

(** [pathlib] finds in the text of a path the components the path was
    built from, so that name and suffixes can be read off either. *)
Lemma path_parts_Path path : path_parts (Path path) = path_parts path.
Proof.
  unfold Path. pose proof (path_parts_kept path) as Hk.
  destruct (path_parts path) as [|p ps] eqn:Hparts.
  - unfold path_root.
    destruct (_ =? 0)%nat; [done|]. by destruct (_ =? 2)%nat.
  - assert (Htext : String.eqb (path_root path ++ PyStr.join "/" (p :: ps)) EmptyString
                    = false).
    { inversion Hk as [|? ? [Hp _] _]; subst.
      destruct p as [|c p]; [done|].
      unfold path_root.
      destruct (_ =? 0)%nat; [|by destruct (_ =? 2)%nat].
      by destruct ps. }
    rewrite Htext, path_parts_root. unfold path_parts.
    rewrite (split_join "/" p ps).
    + apply forallb_filter_id, forallb_forall. intros c Hc.
      rewrite Forall_forall in Hk. apply list_elem_of_In in Hc.
      by destruct (Hk c Hc).
    + eapply Forall_impl; [exact Hk|]. by intros c [_ ?].
Qed.

Lemma path_name_Path path : path_name (Path path) = path_name path.
Proof. unfold path_name. by rewrite path_parts_Path. Qed.

Lemma path_suffixes_Path path : path_suffixes (Path path) = path_suffixes path.
Proof. unfold path_suffixes. by rewrite path_name_Path. Qed.

(** ** The argument parser as a whole *)

Lemma is_dir_exists files place :
  path_is_dir files place = true →
  path_exists files place && path_is_dir files place = true.
Proof.
  unfold path_exists, path_is_dir. by destruct (files !! place) as [[|]|].
Qed.

Lemma last_or_cons value values before :
  last_or values (Some value) = last_or (value :: values) before.
Proof. unfold last_or. rewrite last_cons. by destruct (last values). Qed.

Lemma last_templates_value (argv : list cli_arg) (t : string) :
  last (templates_values argv) = Some t → ArgTemplates t ∈ argv.
Proof.
  intros H. apply last_Some_elem_of in H.
  induction argv as [|a argv IH]; simpl in H; [by apply elem_of_nil in H|].
  destruct a; try (apply elem_of_cons; right; by apply IH).
  apply elem_of_cons in H as [->|H]; apply elem_of_cons; [by left|right; by apply IH].
Qed.

Lemma last_dispatch_value (argv : list cli_arg) (d : string) :
  last (dispatch_values argv) = Some d → ArgDispatch d ∈ argv.
Proof.
  intros H. apply last_Some_elem_of in H.
  induction argv as [|a argv IH]; simpl in H; [by apply elem_of_nil in H|].
  destruct a; try (apply elem_of_cons; right; by apply IH).
  apply elem_of_cons in H as [->|H]; apply elem_of_cons; [by left|right; by apply IH].
Qed.

Ltac step_arg_passes_in H := cbn [arg_passes] in H.

Section ParserWhole.

Variable resolve : string → string.

Local Abbreviation consume := (consume resolve).
Local Abbreviation parse_cmd_line := (parse_cmd_line resolve).
Local Abbreviation arg_passes := (arg_passes resolve).

(** A command line every occurrence of which passes is consumed to its
    end. *)
Lemma consume_passes (argv : list cli_arg) :
  ∀ ns extras st,
    forallb (arg_passes (fs st)) argv = true →
    consume argv ns extras st
    = (Ok (final_namespace ns argv, (extras ++ unrecognized argv)%list),
       with_flags st argv).
Proof.
  induction argv as [|a argv IH]; intros ns extras st Hpass.
  - destruct ns, st. unfold final_namespace, with_flags, last_or. simpl.
    by rewrite !orb_false_r, !app_nil_r.
  - cbn [forallb] in Hpass. apply andb_true_iff in Hpass as [Ha Hpass].
    destruct a as [| | | |value|value|value|flag|text]; try discriminate;
      step_consume.
    + unfold bind, set_DEBUG. rewrite IH; [|done].
      unfold final_namespace, with_flags. simpl. by rewrite !orb_true_r.
    + unfold bind, set_VERBOSE. rewrite IH; [|done].
      unfold final_namespace, with_flags. simpl. by rewrite !orb_true_r.
    + unfold bind, get_fs. rewrite convert_directory_path.
      step_arg_passes_in Ha. rewrite (is_dir_exists _ _ Ha), IH; [|done].
      unfold final_namespace, with_flags. cbn [templates_values fmap list_fmap].
      simpl. by rewrite (last_or_cons _ _ (ns_templates ns)).
    + unfold bind, get_fs. rewrite convert_dispatch_file.
      step_arg_passes_in Ha. rewrite Ha, IH; [|done].
      unfold final_namespace, with_flags. cbn [dispatch_values fmap list_fmap].
      simpl. by rewrite (last_or_cons _ _ (ns_dispatch ns)).
    + rewrite IH; [|done].
      unfold final_namespace, with_flags. simpl. by rewrite <- app_assoc.
    + rewrite IH; [|done].
      unfold final_namespace, with_flags. simpl. by rewrite <- app_assoc.
Qed.

(** Otherwise the first occurrence that does not pass stops the parser:
    [--version] and [-h] print and leave with code 0, anything else is
    reported with the usage text and leaves with code 2. *)
Lemma consume_stops (argv : list cli_arg) :
  ∀ ns extras st,
    forallb (arg_passes (fs st)) argv = false →
    ∃ e st',
      consume argv ns extras st = (Raise e, st')
      ∧ fs st' = fs st
      ∧ ((e = SystemExit 0 ∧ (∃ text, trace st' = (trace st ++ [Print text])%list)
          ∧ (ArgVersion ∈ argv ∨ ArgHelp ∈ argv))
         ∨ (e = SystemExit 2
            ∧ ∃ message, trace st' = (trace st ++ [UsageError message])%list)).
Proof.
  induction argv as [|a argv IH]; intros ns extras st Hstop; [discriminate|].
  cbn [forallb] in Hstop.
  assert (Hrest : ∀ ns' extras' st1,
            fs st1 = fs st → trace st1 = trace st →
            forallb (arg_passes (fs st)) argv = false →
            ∃ e st',
              consume argv ns' extras' st1 = (Raise e, st')
              ∧ fs st' = fs st
              ∧ ((e = SystemExit 0
                  ∧ (∃ text, trace st' = (trace st ++ [Print text])%list)
                  ∧ (a ∈ a :: argv → ArgVersion ∈ a :: argv ∨ ArgHelp ∈ a :: argv))
                 ∨ (e = SystemExit 2
                    ∧ ∃ message,
                        trace st' = (trace st ++ [UsageError message])%list))).
  { intros ns' extras' st1 Hfs Htr Hargv. rewrite <- Hfs in Hargv.
    destruct (IH ns' extras' st1 Hargv) as (e & st' & Hc & Hfs' & Hkind).
    exists e, st'. rewrite Hc, Hfs', Hfs, <- Htr. split; [done|]. split; [done|].
    destruct Hkind as [(-> & Htext & Hin)|Husage]; [left|by right].
    repeat split; [done|]. intros _.
    destruct Hin; [left|right]; by apply elem_of_cons; right. }
  assert (Hhere : a ∈ a :: argv) by (apply elem_of_cons; by left).
  destruct a as [| | | |value|value|value|flag|text];
    step_consume; step_arg_passes_in Hstop.
  - do 2 eexists. split; [reflexivity|]. split; [done|]. left.
    split; [done|]. split; [by eexists|]. left. apply elem_of_cons. by left.
  - do 2 eexists. split; [reflexivity|]. split; [done|]. left.
    split; [done|]. split; [by eexists|]. right. apply elem_of_cons. by left.
  - unfold bind, set_DEBUG.
    destruct (Hrest (mkNamespace true (ns_verbose ns) (ns_templates ns)
                       (ns_dispatch ns) (ns_dispatch_opts ns)) extras
                (mkState (fs st) true (VERBOSE st) (trace st)) eq_refl eq_refl Hstop)
      as (e & st' & Hc & Hfs & Hkind).
    exists e, st'. split; [exact Hc|]. split; [done|].
    destruct Hkind as [(He & Ht & Hin)|Hu]; [left|by right]. auto.
  - unfold bind, set_VERBOSE.
    destruct (Hrest (mkNamespace (ns_debug ns) true (ns_templates ns)
                       (ns_dispatch ns) (ns_dispatch_opts ns)) extras
                (mkState (fs st) (DEBUG st) true (trace st)) eq_refl eq_refl Hstop)
      as (e & st' & Hc & Hfs & Hkind).
    exists e, st'. split; [exact Hc|]. split; [done|].
    destruct Hkind as [(He & Ht & Hin)|Hu]; [left|by right]. auto.
  - unfold bind, get_fs. rewrite convert_directory_path.
    destruct (path_exists (fs st) (resolve (Path value))
              && path_is_dir (fs st) (resolve (Path value))) eqn:Hok.
    + apply andb_true_iff in Hok as [_ Hdir]. rewrite Hdir in Hstop.
      destruct (Hrest (mkNamespace (ns_debug ns) (ns_verbose ns) (Some (Path value))
                         (ns_dispatch ns) (ns_dispatch_opts ns)) extras st
                  eq_refl eq_refl Hstop)
        as (e & st' & Hc & Hfs & Hkind).
      exists e, st'. split; [exact Hc|]. split; [done|].
      destruct Hkind as [(He & Ht & Hin)|Hu]; [left|by right]. auto.
    + do 2 eexists. split; [reflexivity|]. split; [done|]. right. eauto.
  - unfold bind, get_fs. rewrite convert_dispatch_file.
    destruct (path_exists (fs st) (resolve (Path value))
              && str_in ".py" (path_suffixes (Path value))) eqn:Hok.
    + destruct (Hrest (mkNamespace (ns_debug ns) (ns_verbose ns) (ns_templates ns)
                         (Some (Path value)) (ns_dispatch_opts ns)) extras st
                  eq_refl eq_refl Hstop)
        as (e & st' & Hc & Hfs & Hkind).
      exists e, st'. split; [exact Hc|]. split; [done|].
      destruct Hkind as [(He & Ht & Hin)|Hu]; [left|by right]. auto.
    + do 2 eexists. split; [reflexivity|]. split; [done|]. right. eauto.
  - destruct (Hrest (mkNamespace (ns_debug ns) (ns_verbose ns) (ns_templates ns)
                       (ns_dispatch ns) (ns_dispatch_opts ns ++ [value])) extras st
                eq_refl eq_refl Hstop)
      as (e & st' & Hc & Hfs & Hkind).
    exists e, st'. split; [exact Hc|]. split; [done|].
    destruct Hkind as [(He & Ht & Hin)|Hu]; [left|by right]. auto.
  - do 2 eexists. unfold parser_error, bind, emit, sys_exit, raise.
    split; [reflexivity|]. split; [done|]. right. eauto.
  - destruct (Hrest ns (extras ++ [text])%list st eq_refl eq_refl Hstop)
      as (e & st' & Hc & Hfs & Hkind).
    exists e, st'. split; [exact Hc|]. split; [done|].
    destruct Hkind as [(He & Ht & Hin)|Hu]; [left|by right]. auto.
Qed.

Lemma parse_cmd_line_passes (argv : list cli_arg) (st : state) :
  forallb (arg_passes (fs st)) argv = true →
  parse_cmd_line argv st
  = match Path <$> last (templates_values argv),
          Path <$> last (dispatch_values argv) with
    | Some t, Some d =>
        match unrecognized argv with
        | [] => (Ok (mkArgs (has_debug argv) (has_verbose argv) t d (opt_values argv)),
                 with_flags st argv)
        | _ :: _ =>
            (Raise (SystemExit 2),
             logged (with_flags st argv) [UsageError "unrecognized arguments"])
        end
    | _, _ =>
        (Raise (SystemExit 2),
         logged (with_flags st argv)
           [UsageError "the following arguments are required"])
    end.
Proof.
  intros Hpass. unfold_parse_cmd_line. unfold bind at 1.
  rewrite (consume_passes _ _ _ _ Hpass).
  unfold final_namespace, initial_namespace, last_or. simpl.
  rewrite !fmap_last.
  destruct (last (templates_values argv)), (last (dispatch_values argv));
    try reflexivity.
  by destruct (unrecognized argv).
Qed.

Lemma parse_cmd_line_ok_inv (argv : list cli_arg) (st : state) args st' :
  parse_cmd_line argv st = (Ok args, st') →
  forallb (arg_passes (fs st)) argv = true
  ∧ unrecognized argv = []
  ∧ Path <$> last (templates_values argv) = Some (templates args)
  ∧ Path <$> last (dispatch_values argv) = Some (dispatch args)
  ∧ dispatch_opts args = opt_values argv
  ∧ debug args = has_debug argv
  ∧ verbose args = has_verbose argv
  ∧ st' = with_flags st argv.
Proof.
  intros H. destruct (forallb (arg_passes (fs st)) argv) eqn:Hpass.
  - rewrite (parse_cmd_line_passes _ _ Hpass) in H.
    destruct (last (templates_values argv)) as [t|]; [|done].
    destruct (last (dispatch_values argv)) as [d|]; [|done].
    destruct (unrecognized argv); [|done].
    inversion H; subst. done.
  - destruct (consume_stops argv initial_namespace [] st Hpass)
      as (e & st1 & Hc & _).
    unfold_parse_cmd_line_in H. unfold bind at 1 in H. by rewrite Hc in H.
Qed.

(** The parser returns arguments exactly when every occurrence passes
    (no [--version] or [-h], no option without its value, every
    [--templates] value a directory, every [--dispatch] value an existing
    path with [.py] among its suffixes), nothing is left unrecognised and
    both required options occur.  The arguments are then the paths of
    the last [--templates] and [--dispatch] values, the [--dispatch-opt]
    values in order and the two flags; the state changes in the two
    globals only. *)
Theorem parse_cmd_line_succeeds_iff (argv : list cli_arg) (st : state)
    (args : Args) (st' : state) :
  parse_cmd_line argv st = (Ok args, st')
  ↔ forallb (arg_passes (fs st)) argv = true
    ∧ unrecognized argv = []
    ∧ Path <$> last (templates_values argv) = Some (templates args)
    ∧ Path <$> last (dispatch_values argv) = Some (dispatch args)
    ∧ dispatch_opts args = opt_values argv
    ∧ debug args = has_debug argv
    ∧ verbose args = has_verbose argv
    ∧ st' = with_flags st argv.
Proof.
  split; [apply parse_cmd_line_ok_inv|].
  intros (Hpass & Hextra & Ht & Hd & Hopts & Hdebug & Hverbose & ->).
  rewrite (parse_cmd_line_passes _ _ Hpass), Ht, Hd, Hextra.
  destruct args; simpl in *. by subst.
Qed.

(** What [main] can rely on after [parse_cmd_line]: the template
    directory is a directory, the dispatch file exists and has [.py]
    among its suffixes, and the filesystem and the trace are as they
    were. *)
Theorem parsed_arguments_are_valid (argv : list cli_arg) (st : state)
    (args : Args) (st' : state) :
  parse_cmd_line argv st = (Ok args, st') →
  fs st' !! resolve (templates args) = Some Dir
  ∧ is_Some (fs st' !! resolve (dispatch args))
  ∧ ".py" ∈ path_suffixes (dispatch args)
  ∧ fs st' = fs st
  ∧ trace st' = trace st.
Proof.
  intros H. apply parse_cmd_line_ok_inv in H
    as (Hpass & _ & Ht & Hd & _ & _ & _ & ->).
  rewrite forallb_forall in Hpass.
  apply fmap_Some in Ht as (t & Ht & ->). apply fmap_Some in Hd as (d & Hd & ->).
  apply last_templates_value, list_elem_of_In, Hpass in Ht.
  apply last_dispatch_value, list_elem_of_In, Hpass in Hd.
  step_arg_passes_in Ht. step_arg_passes_in Hd.
  apply andb_true_iff in Hd as [Hex Hpy].
  unfold path_is_dir, path_exists in *. simpl.
  repeat split.
  - by destruct (fs st !! resolve (Path t)) as [[|]|].
  - by destruct (fs st !! resolve (Path d)).
  - by apply str_in_elem_of.
Qed.

End ParserWhole.

Lemma parse_cmd_line_succeeds_iff_witness :
  parse_cmd_line Demo.resolve
    [ArgDebug; ArgTemplates "tpl/"; ArgDispatchOpt "a:1"; ArgDispatch "./d.py"]
    (boot Demo.files)
  = (Ok (mkArgs true false "tpl" "d.py" ["a:1"]),
     mkState Demo.files true false []).
Proof.
  apply (proj2 (parse_cmd_line_succeeds_iff Demo.resolve
                  [ArgDebug; ArgTemplates "tpl/"; ArgDispatchOpt "a:1";
                   ArgDispatch "./d.py"]
                  (boot Demo.files) (mkArgs true false "tpl" "d.py" ["a:1"])
                  (mkState Demo.files true false []))).
  repeat split; reflexivity.
Defined.

Lemma parsed_arguments_are_valid_witness :
  Demo.files !! "tpl" = Some Dir ∧ is_Some (Demo.files !! "d.py").
Proof.
  destruct (parsed_arguments_are_valid Demo.resolve Demo.argv (boot Demo.files)
              (Demo.parsed []) (boot Demo.files))
    as (Hdir & Hfile & _).
  - vm_compute. reflexivity.
  - split; [exact Hdir|exact Hfile].
Defined.

(** ** The path validators *)

Lemma split_app_any sep a b :
  PyStr.split sep (a ++ String sep b) = (PyStr.split sep a ++ PyStr.split sep b)%list.
Proof.
  induction a as [|c a IH]; simpl.
  - by rewrite Ascii.eqb_refl.
  - destruct (Ascii.eqb c sep) eqn:E; rewrite IH; [reflexivity|].
    destruct (PyStr.split sep a) as [|f fs] eqn:Hs;
      [by destruct (split_not_nil sep a)|reflexivity].
Qed.

Lemma endswith_dot_cons c s :
  s ≠ EmptyString → PyStr.endswith (String c s) "." = PyStr.endswith s ".".
Proof.
  destruct s as [|d s]; [done|]. intros _. unfold PyStr.endswith. simpl.
  by rewrite !Nat.sub_0_r.
Qed.

Lemma endswith_dot_app stem tail :
  tail ≠ EmptyString → PyStr.endswith (stem ++ tail) "." = PyStr.endswith tail ".".
Proof.
  intros Htail. induction stem as [|c stem IH]; [done|].
  change (String c stem ++ tail) with (String c (stem ++ tail)).
  rewrite endswith_dot_cons; [done|]. by destruct stem, tail.
Qed.

Lemma lstrip_dots n rest :
  PyStr.contains "." rest = false → PyStr.lstrip "." (dots n ++ rest) = rest.
Proof.
  intros Hrest. induction n as [|n IH]; simpl; [|exact IH].
  destruct rest as [|d rest]; [done|]. simpl in *.
  by destruct (Ascii.eqb d ".").
Qed.

Section ValidatorFacts.

Variable resolve : string → string.

Local Abbreviation dispatch_file := (dispatch_file resolve).

(** A path whose file name is [stem.py], the stem not starting with a
    dot, is accepted as soon as it exists, whatever other dots the stem
    holds. *)
Theorem dispatch_accepts_py_names (files : gmap string node) (path : string)
    (c : ascii) (rest : string) :
  path_name path = String c rest ++ ".py" →
  c ≠ "."%char →
  is_Some (files !! resolve (Path path)) →
  ".py" ∈ path_suffixes path
  ∧ List.last (path_suffixes path) EmptyString = ".py"
  ∧ ∀ error_message, dispatch_file files error_message path = Ok (Path path).
Proof.
  intros Hname Hc [n Hn].
  assert (Hsuffixes : path_suffixes path
                      = (map (fun suffix => ("." ++ suffix)%string)
                             (tl (PyStr.split "." (String c rest))) ++ [".py"])%list).
  { unfold path_suffixes. rewrite Hname.
    rewrite (endswith_dot_app (String c rest) ".py"); [|done].
    change (PyStr.endswith ".py" ".") with false. cbn iota.
    assert (Hstrip : PyStr.lstrip "." (String c rest ++ ".py") = String c rest ++ ".py").
    { simpl. destruct (Ascii.eqb c ".") eqn:E; [|done].
      by apply Ascii.eqb_eq in E. }
    rewrite Hstrip.
    change (String c rest ++ ".py") with (String c rest ++ String "." "py").
    rewrite split_app_any.
    destruct (PyStr.split "." (String c rest)) as [|f fs] eqn:Hs;
      [by destruct (split_not_nil "." (String c rest))|].
    simpl. by rewrite map_app. }
  assert (Hin : ".py" ∈ path_suffixes path).
  { rewrite Hsuffixes. apply elem_of_app. right. by apply list_elem_of_singleton. }
  split; [exact Hin|]. split.
  - rewrite Hsuffixes. apply last_last.
  - intros error_message. unfold_validators. unfold path_exists.
    rewrite Hn, path_suffixes_Path.
    by rewrite (proj2 (str_in_elem_of _ _) Hin).
Qed.

(** A path whose file name has no dot after its leading dots ([README],
    [.py], [..py]) has no suffix at all and is refused, whether it exists
    or not. *)
Theorem dispatch_refuses_names_without_suffix (files : gmap string node)
    (path : string) (n : nat) (rest : string) :
  path_name path = dots n ++ rest →
  PyStr.contains "." rest = false →
  path_suffixes path = []
  ∧ ∀ error_message,
      dispatch_file files error_message path
      = Raise (ExceptionOf "ArgumentTypeError" error_message).
Proof.
  intros Hname Hrest.
  assert (Hsuffixes : path_suffixes path = []).
  { unfold path_suffixes. rewrite Hname.
    destruct (PyStr.endswith (dots n ++ rest) "."); [done|].
    by rewrite (lstrip_dots _ _ Hrest), (split_without _ _ Hrest). }
  split; [exact Hsuffixes|].
  intros error_message. unfold_validators. rewrite path_suffixes_Path, Hsuffixes.
  simpl. by rewrite andb_false_r.
Qed.

End ValidatorFacts.

Lemma dispatch_accepts_py_names_witness :
  dispatch_file Demo.resolve Demo.files dispatch_error_message "./d.py" = Ok "d.py"
  ∧ path_suffixes "lib/dispatch.v2.py" = [".v2"; ".py"].
Proof.
  split.
  - apply (dispatch_accepts_py_names Demo.resolve Demo.files "./d.py" "d" EmptyString);
      [reflexivity|discriminate|by eexists].
  - reflexivity.
Defined.

Lemma dispatch_refuses_names_without_suffix_witness :
  dispatch_file Demo.resolve (<[".py" := File "dispatch"]> Demo.files)
    dispatch_error_message ".py"
  = Raise (ExceptionOf "ArgumentTypeError" dispatch_error_message).
Proof.
  apply (dispatch_refuses_names_without_suffix Demo.resolve _ ".py" 1 "py");
    reflexivity.
Defined.

(** ** Whole runs *)

Section RunFacts.

Variable resolve : string → string.
Variable engine : Engine.
Variable exec_module : gmap string node → string → result module.
Variable open_error : gmap string node → string → option exn.

Local Abbreviation parse_cmd_line := (parse_cmd_line resolve).
Local Abbreviation template_source := (template_source resolve).
Local Abbreviation apply_writes := (apply_writes resolve).
Local Abbreviation last_written := (last_written resolve).
Local Abbreviation rendered_texts := (rendered_texts resolve engine open_error).
Local Abbreviation render_one := (render_one resolve engine open_error).
Local Abbreviation render_loop := (render_loop resolve engine open_error).
Local Abbreviation main_from := (main_from resolve engine exec_module open_error).
Local Abbreviation main := (main resolve engine exec_module open_error).
Local Abbreviation run := (run resolve engine exec_module open_error).

(** What [main] logs once the command line is parsed: the load of the
    extension, then at most a call of the entry point and events of the
    loop. *)
Lemma main_from_effect args st :
  ∃ evs,
    trace (main_from args st).2 = (trace (loaded args st) ++ evs)%list
    ∧ forallb (fun ev => loop_event ev || is_CallDispatch ev) evs = true.
Proof.
  rewrite main_from_steps.
  destruct (exec_module (fs st) (dispatch args)) as [dispatcher|e1];
    [|exists []; by rewrite app_nil_r].
  destruct (parse_dispatch_opts (dispatch_opts args)) as [kw|e2];
    [|exists []; by rewrite app_nil_r].
  destruct (dispatch_attr dispatcher) as [entry|];
    [|exists []; by rewrite app_nil_r].
  destruct (entry kw) as [g|e3]; [|by exists [CallDispatch kw]].
  unfold bind.
  destruct (render_loop_events resolve engine open_error (templates args) g
              (logged (loaded args st) [CallDispatch kw]))
    as (evs & Htr & Hq).
  exists (CallDispatch kw :: evs).
  destruct (render_loop (templates args) g
              (logged (loaded args st) [CallDispatch kw]))
    as [[[]|e] st2]; simpl fst in *; simpl snd in *;
    (split; [by rewrite Htr, trace_logged, <- app_assoc|]);
    simpl; apply forallb_forall; intros ev Hin;
    rewrite forallb_forall in Hq; by rewrite (Hq ev Hin).
Qed.

(** The [__main__] block adds to what [main] did at most one report and
    leaves the filesystem as [main] left it. *)
Lemma run_after_main argv st :
  fs (run argv st).2 = fs (main argv st).2
  ∧ ((run argv st).1 = match (main argv st).1 with
                       | Ok _ => 0%Z
                       | Raise e => status_of e
                       end)
  ∧ trace (run argv st).2
    = (trace (main argv st).2
       ++ match (main argv st).1 with Ok _ => [] | Raise e => report_of e end)%list.
Proof.
  rewrite run_of_main.
  destruct (main argv st) as [[status|[code| |cls msg|cls]] st']; simpl;
    by rewrite ?app_nil_r.
Qed.

Lemma report_not_loop_event (r : result Z) :
  opened_paths (match r with Ok _ => [] | Raise e => report_of e end) = []
  ∧ forallb (fun ev => negb (is_PrintArgs ev))
            (match r with Ok _ => [] | Raise e => report_of e end) = true.
Proof. by destruct r as [status|[code| |cls msg|cls]]. Qed.

(** The parsed arguments are printed exactly when [-d] or [--debug] is
    on the command line, and then before anything else happens; no other
    step of a run prints them. *)
Theorem arguments_printed_iff_debug (argv : list cli_arg)
    (files : gmap string node) (args : Args) (st1 : state) :
  parse_cmd_line argv (boot files) = (Ok args, st1) →
  (has_debug argv = true →
   ∃ rest,
     trace (run argv (boot files)).2
     = PrintArgs true (verbose args) (templates args) (dispatch args)
                 (dispatch_opts args)
         :: ExecModule (dispatch args) :: rest)
  ∧ (has_debug argv = false →
     ∃ rest,
       trace (run argv (boot files)).2 = ExecModule (dispatch args) :: rest
       ∧ forallb (fun ev => negb (is_PrintArgs ev)) rest = true).
Proof.
  intros Hparse.
  destruct (run_after_main argv (boot files)) as (_ & _ & Htr).
  rewrite Htr, main_steps, Hparse. clear Htr.
  apply parse_cmd_line_ok_inv in Hparse as (_ & _ & _ & _ & _ & Hdebug & _ & ->).
  destruct (main_from_effect args (with_flags (boot files) argv))
    as (evs & Htr & Hq).
  rewrite Htr. unfold loaded, logged, with_flags. simpl.
  split; intros Hd; rewrite Hd.
  - rewrite Hdebug, Hd. simpl. by eexists.
  - simpl. eexists. split; [reflexivity|].
    rewrite forallb_app. apply andb_true_iff. split.
    + apply forallb_forall. intros ev Hin. rewrite forallb_forall in Hq.
      specialize (Hq ev Hin). by destruct ev.
    + apply report_not_loop_event.
Qed.

Lemma logged_nothing st : logged st [] = st.
Proof. destruct st. unfold logged. simpl. by rewrite app_nil_r. Qed.

(** How a run ends when [main] ends with an exception, and when it
    returns. *)
Lemma run_raise argv st e st' :
  main argv st = (Raise e, st') →
  run argv st = (status_of e, logged st' (report_of e)).
Proof.
  intros H. rewrite run_of_main, H.
  destruct e as [code| |cls msg|cls]; simpl; by rewrite ?logged_nothing.
Qed.


(** [main] up to the loop, when nothing fails before it. *)
Lemma main_reaches_loop argv files args st1 dispatcher entry kw g :
  parse_cmd_line argv (boot files) = (Ok args, st1) →
  exec_module files (dispatch args) = Ok dispatcher →
  parse_dispatch_opts (dispatch_opts args) = Ok kw →
  dispatch_attr dispatcher = Some entry →
  entry kw = Ok g →
  main argv (boot files)
  = match render_loop (templates args) g (logged (loaded args st1) [CallDispatch kw])
    with
    | (Ok _, st') => (Ok 0%Z, st')
    | (Raise e, st') => (Raise e, st')
    end.
Proof.
  intros Hparse Hexec Hopts Hattr Hentry.
  destruct (parse_cmd_line_boot _ _ _ _ _ Hparse) as (Hfs & _).
  by rewrite main_steps, Hparse, main_from_steps, Hfs, Hexec, Hopts, Hattr, Hentry.
Qed.


Lemma render_loop_raise searchpath e st :
  render_loop searchpath (GRaise e) st = (Raise e, st).
Proof. reflexivity. Qed.

Lemma before_loop_nothing_written args st1 kw :
  trace st1 = [] →
  opened_paths (trace (logged (loaded args st1) [CallDispatch kw])) = []
  ∧ written_files (trace (logged (loaded args st1) [CallDispatch kw])) = [].
Proof.
  intros Htr. unfold loaded, logged. simpl. rewrite Htr. by destruct (DEBUG st1).
Qed.

(** A loop all instructions of which go through: the files are opened
    in the order yielded, and the filesystem is the one it started from
    with the written files put in, in order. *)
Lemma render_loop_done searchpath (items : list instruction) :
  ∀ st st',
    render_loop searchpath (yields items GStop) st = (Ok tt, st') →
    ∃ evs,
      st' = mkState (apply_writes (fs st) (written_files evs)) (DEBUG st) (VERBOSE st)
              (trace st ++ evs)
      ∧ opened_paths evs = map output_of items
      ∧ (written_files evs).*1 = map output_of items.
Proof.
  induction items as [|item items IH]; intros st st' H.
  - simpl in H. unfold ret in H. inversion H; subst.
    exists []. destruct st'. simpl. by rewrite app_nil_r.
  - cbn [yields] in H. rewrite render_loop_yield in H.
    destruct (render_one searchpath item st) as [[[]|e] st1] eqn:Hone; [|done].
    destruct (render_one_ok _ _ _ _ _ _ _ Hone) as [text ->].
    destruct (IH _ _ H) as (evs & -> & Hopen & Hwritten). simpl.
    exists ([GetTemplate (tname_of item); OpenW (output_of item);
             Render (tname_of item); WriteText (output_of item) text] ++ evs)%list.
    split; [by rewrite <- app_assoc|].
    simpl. split; f_equal; [exact Hopen|exact Hwritten].
Qed.


(** An extension that raises while it is iterated, after [k-1]
    instructions went through: their output files stay as written, and
    the exception decides the end of the run.  A [SystemExit] gives
    status 0 without a word, a user interrupt the one-line message and
    status 1, anything else an error trace and status 1. *)
Theorem extension_raises_while_iterated (argv : list cli_arg)
    (files : gmap string node) (args : Args) (st1 : state) (dispatcher : module)
    (entry : gmap string string → result generator) (kw : gmap string string)
    (prefix : list instruction) (e : exn) (st_k : state) :
  parse_cmd_line argv (boot files) = (Ok args, st1) →
  exec_module files (dispatch args) = Ok dispatcher →
  parse_dispatch_opts (dispatch_opts args) = Ok kw →
  dispatch_attr dispatcher = Some entry →
  entry kw = Ok (yields prefix (GRaise e)) →
  render_loop (templates args) (yields prefix GStop)
    (logged (loaded args st1) [CallDispatch kw]) = (Ok tt, st_k) →
  run argv (boot files) = (status_of e, logged st_k (report_of e))
  ∧ opened_paths (trace (run argv (boot files)).2) = map output_of prefix
  ∧ fs (run argv (boot files)).2 = apply_writes files (written_files (trace st_k)).
Proof.
  intros Hparse Hexec Hopts Hattr Hentry Hloop.
  pose proof (main_reaches_loop _ _ _ _ _ _ _ _ Hparse Hexec Hopts Hattr Hentry)
    as Hmain.
  destruct (render_loop_prefix _ _ _ _ _ _ _ (GRaise e) Hloop) as (Hgo & _).
  rewrite Hgo, render_loop_raise in Hmain.
  rewrite (run_raise _ _ _ _ Hmain).
  destruct (parse_cmd_line_boot _ _ _ _ _ Hparse) as (Hfs & Htr & _).
  destruct (before_loop_nothing_written args st1 kw Htr) as [Hpo Hpw].
  destruct (render_loop_done _ _ _ _ Hloop) as (evs & -> & Hopen & Hwritten).
  split; [done|]. cbn [snd]. rewrite trace_logged, fs_logged. cbn [trace fs].
  rewrite !opened_paths_app, written_files_app, Hpo, Hpw, Hopen.
  simpl. rewrite Hfs.
  split; [|done]. destruct e; simpl; by rewrite app_nil_r.
Qed.

(** The operating system refusing the output file of instruction [k]:
    the template was looked up and compiled but is not rendered, nothing
    is written for this instruction, the earlier output files stay, and
    the exception decides the end of the run. *)
Theorem output_cannot_be_opened (argv : list cli_arg)
    (files : gmap string node) (args : Args) (st1 : state) (dispatcher : module)
    (entry : gmap string string → result generator) (kw : gmap string string)
    (prefix : list instruction) (tname : string) (context : gmap string value)
    (output_file : string) (rest : generator) (source : string)
    (t : template engine) (e : exn) (st_k : state) :
  parse_cmd_line argv (boot files) = (Ok args, st1) →
  exec_module files (dispatch args) = Ok dispatcher →
  parse_dispatch_opts (dispatch_opts args) = Ok kw →
  dispatch_attr dispatcher = Some entry →
  entry kw = Ok (yields prefix (GYield (tname, context, output_file) rest)) →
  render_loop (templates args) (yields prefix GStop)
    (logged (loaded args st1) [CallDispatch kw]) = (Ok tt, st_k) →
  template_source (fs st_k) (templates args) tname = Some source →
  compile engine source = Ok t →
  open_error (fs st_k) output_file = Some e →
  run argv (boot files)
  = (status_of e,
     logged st_k ([GetTemplate tname; OpenW output_file] ++ report_of e))
  ∧ fs (run argv (boot files)).2 = fs st_k.
Proof.
  intros Hparse Hexec Hopts Hattr Hentry Hloop Hfile Hcompile Hopen.
  pose proof (main_reaches_loop _ _ _ _ _ _ _ _ Hparse Hexec Hopts Hattr Hentry)
    as Hmain.
  destruct (render_loop_prefix _ _ _ _ _ _ _
              (GYield (tname, context, output_file) rest) Hloop) as (Hgo & _).
  rewrite Hgo, render_loop_yield, render_one_steps, Hfile, Hcompile, Hopen in Hmain.
  rewrite (run_raise _ _ _ _ Hmain), logged_logged. done.
Qed.

(** The order of the checks of [main] before the loop.  A failure to
    load the extension is what is reported, whatever the
    [--dispatch-opt] tokens are; a module without [dispatch] is found out
    only after the tokens went through, and an entry point that raises
    when called only after that.  In each case the run ends before the
    loop: no template is asked for and no output file is opened or
    written. *)
Theorem failures_before_the_loop (argv : list cli_arg) (files : gmap string node)
    (args : Args) (st1 : state) :
  parse_cmd_line argv (boot files) = (Ok args, st1) →
  (∀ e, exec_module files (dispatch args) = Raise e →
        run argv (boot files) = (status_of e, logged (loaded args st1) (report_of e)))
  ∧ (∀ dispatcher kw,
       exec_module files (dispatch args) = Ok dispatcher →
       parse_dispatch_opts (dispatch_opts args) = Ok kw →
       dispatch_attr dispatcher = None →
       run argv (boot files)
       = (1%Z, logged (loaded args st1)
                 [Traceback (ExceptionOf "AttributeError" "dispatch")]))
  ∧ (∀ dispatcher kw entry e,
       exec_module files (dispatch args) = Ok dispatcher →
       parse_dispatch_opts (dispatch_opts args) = Ok kw →
       dispatch_attr dispatcher = Some entry →
       entry kw = Raise e →
       run argv (boot files)
       = (status_of e, logged (loaded args st1) (CallDispatch kw :: report_of e))).
Proof.
  intros Hparse.
  destruct (parse_cmd_line_boot _ _ _ _ _ Hparse) as (Hfs & _).
  split; [|split].
  - intros e Hexec. apply run_raise.
    by rewrite main_steps, Hparse, main_from_steps, Hfs, Hexec.
  - intros dispatcher kw Hexec Hopts Hattr.
    rewrite (run_raise argv (boot files) (ExceptionOf "AttributeError" "dispatch")
               (loaded args st1)); [done|].
    by rewrite main_steps, Hparse, main_from_steps, Hfs, Hexec, Hopts, Hattr.
  - intros dispatcher kw entry e Hexec Hopts Hattr Hentry.
    rewrite (run_raise argv (boot files) e
               (logged (loaded args st1) [CallDispatch kw])).
    + by rewrite logged_logged.
    + by rewrite main_steps, Hparse, main_from_steps, Hfs, Hexec, Hopts, Hattr,
           Hentry.
Qed.

End RunFacts.

Lemma arguments_printed_iff_debug_witness :
  ∃ rest,
    trace (Demo.run_with [] (ArgDebug :: Demo.argv)).2
    = PrintArgs true false "tpl" "d.py" [] :: ExecModule "d.py" :: rest.
Proof.
  apply (proj1 (arguments_printed_iff_debug Demo.resolve MiniEngine.engine (Demo.exec [])
                  MiniEngine.may_open (ArgDebug :: Demo.argv) Demo.files
                  (mkArgs true false "tpl" "d.py" [])
                  (mkState Demo.files true false [])
                  ltac:(vm_compute; reflexivity))).
  reflexivity.
Defined.


Lemma extension_raises_while_iterated_witness :
  run Demo.resolve MiniEngine.engine
      (Demo.exec_gen (yields [Demo.hello] (GRaise (SystemExit 3))))
      MiniEngine.may_open Demo.argv (boot Demo.files)
  = (0%Z, Demo.after_hello).
Proof.
  destruct (extension_raises_while_iterated Demo.resolve MiniEngine.engine
              (Demo.exec_gen (yields [Demo.hello] (GRaise (SystemExit 3))))
              MiniEngine.may_open Demo.argv Demo.files (Demo.parsed [])
              (boot Demo.files)
              (mkModule (Some (fun _ => Ok (yields [Demo.hello] (GRaise (SystemExit 3))))))
              (fun _ => Ok (yields [Demo.hello] (GRaise (SystemExit 3)))) ∅
              [Demo.hello] (SystemExit 3) Demo.after_hello)
    as (Hrun & _).
  - vm_compute. reflexivity.
  - reflexivity.
  - reflexivity.
  - reflexivity.
  - reflexivity.
  - vm_compute. reflexivity.
  - rewrite Hrun. vm_compute. reflexivity.
Defined.

Lemma output_cannot_be_opened_witness :
  (run Demo.resolve MiniEngine.engine (Demo.exec [Demo.hello; Demo.dear])
       Demo.refuse_report Demo.argv (boot Demo.files)).1 = 1%Z
  ∧ fs (run Demo.resolve MiniEngine.engine (Demo.exec [Demo.hello; Demo.dear])
          Demo.refuse_report Demo.argv (boot Demo.files)).2 !! "report.txt"
    = Some (File "kept").
Proof.
  destruct (output_cannot_be_opened Demo.resolve MiniEngine.engine
              (Demo.exec [Demo.hello; Demo.dear]) Demo.refuse_report
              Demo.argv Demo.files (Demo.parsed []) (boot Demo.files)
              (MiniEngine.yielding [Demo.hello; Demo.dear])
              (fun _ => Ok (yields [Demo.hello; Demo.dear] GStop)) ∅
              [Demo.hello] "user.tmpl" ∅ "report.txt" GStop "Dear {{ user.name }}"
              [MiniEngine.Text "Dear "; MiniEngine.Attr "user" "name";
               MiniEngine.Text EmptyString]
              (ExceptionOf "PermissionError" "report.txt") Demo.after_hello)
    as (Hrun & Hfs).
  - vm_compute. reflexivity.
  - reflexivity.
  - reflexivity.
  - reflexivity.
  - reflexivity.
  - vm_compute. reflexivity.
  - vm_compute. reflexivity.
  - reflexivity.
  - reflexivity.
  - split; [by rewrite Hrun|]. rewrite Hfs. vm_compute. reflexivity.
Defined.

Lemma failures_before_the_loop_witness :
  run Demo.resolve MiniEngine.engine (Demo.exec_exits 3) MiniEngine.may_open
      (Demo.argv ++ [ArgDispatchOpt "verbose"]) (boot Demo.files)
  = (0%Z, logged (boot Demo.files) [ExecModule "d.py"]).
Proof.
  destruct (failures_before_the_loop Demo.resolve MiniEngine.engine (Demo.exec_exits 3)
              MiniEngine.may_open (Demo.argv ++ [ArgDispatchOpt "verbose"])
              Demo.files (Demo.parsed ["verbose"]) (boot Demo.files))
    as (Hload & _).
  - vm_compute. reflexivity.
  - rewrite (Hload (SystemExit 3) eq_refl). vm_compute. reflexivity.
Defined.

(** ** The verbose flag *)

Lemma hush_eq_intro a b :
  fs a = fs b → DEBUG a = DEBUG b →
  map hush_event (trace a) = map hush_event (trace b) →
  hush a = hush b.
Proof. intros H1 H2 H3. unfold hush. by rewrite H1, H2, H3. Qed.

Lemma hush_eq_inv a b :
  hush a = hush b →
  fs a = fs b ∧ DEBUG a = DEBUG b
  ∧ map hush_event (trace a) = map hush_event (trace b).
Proof. unfold hush. intros [= H1 H2 H3]. done. Qed.

Lemma hush_logged a b evs :
  hush a = hush b → hush (logged a evs) = hush (logged b evs).
Proof.
  intros H. apply hush_eq_inv in H as (H1 & H2 & H3).
  apply hush_eq_intro; simpl; [done|done|]. by rewrite !map_app, H3.
Qed.

Lemma hush_namespace_inv ns ns' :
  hush_namespace ns = hush_namespace ns' →
  ns_debug ns = ns_debug ns' ∧ ns_templates ns = ns_templates ns'
  ∧ ns_dispatch ns = ns_dispatch ns' ∧ ns_dispatch_opts ns = ns_dispatch_opts ns'.
Proof. unfold hush_namespace. intros [= H1 H2 H3 H4]. done. Qed.

Ltac step_hush := cbn [List.filter not_verbose consume].

Section VerboseFacts.

Variable resolve : string → string.
Variable engine : Engine.
Variable exec_module : gmap string node → string → result module.
Variable open_error : gmap string node → string → option exn.

Local Abbreviation consume := (consume resolve).
Local Abbreviation parse_cmd_line := (parse_cmd_line resolve).
Local Abbreviation template_source := (template_source resolve).
Local Abbreviation render_one := (render_one resolve engine open_error).
Local Abbreviation render_loop := (render_loop resolve engine open_error).
Local Abbreviation main_from := (main_from resolve engine exec_module open_error).
Local Abbreviation main := (main resolve engine exec_module open_error).
Local Abbreviation run := (run resolve engine exec_module open_error).

Lemma consume_hush (argv : list cli_arg) :
  ∀ ns ns' extras st st',
    hush_namespace ns = hush_namespace ns' →
    hush st = hush st' →
    same_but_verbose (consume argv ns extras st)
                     (consume (List.filter not_verbose argv) ns' extras st').
Proof.
  induction argv as [|a argv IH]; intros ns ns' extras st st' Hns Hst.
  - by split.
  - pose proof (hush_namespace_inv _ _ Hns) as (Hd & Ht & Hp & Ho).
    pose proof (hush_eq_inv _ _ Hst) as (Hfs & HD & Htr).
    destruct a as [| | | |value|value|value|flag|text]; step_hush.
    + split; [by apply hush_logged|done].
    + split; [by apply hush_logged|done].
    + unfold bind, set_DEBUG. apply IH.
      * unfold hush_namespace. simpl. by rewrite Ht, Hp, Ho.
      * by apply hush_eq_intro.
    + unfold bind at 1. unfold set_VERBOSE. apply IH.
      * unfold hush_namespace. simpl. by rewrite Hd, Ht, Hp, Ho.
      * by apply hush_eq_intro.
    + unfold bind, get_fs. rewrite !convert_directory_path, Hfs.
      destruct (path_exists (fs st') (resolve (Path value))
                && path_is_dir (fs st') (resolve (Path value))).
      * apply IH; [|done]. unfold hush_namespace. simpl. by rewrite Hd, Hp, Ho.
      * split; [by apply hush_logged|done].
    + unfold bind, get_fs. rewrite !convert_dispatch_file, Hfs.
      destruct (path_exists (fs st') (resolve (Path value))
                && str_in ".py" (path_suffixes (Path value))).
      * apply IH; [|done]. unfold hush_namespace. simpl. by rewrite Hd, Ht, Ho.
      * split; [by apply hush_logged|done].
    + apply IH; [|done]. unfold hush_namespace. simpl. by rewrite Hd, Ht, Hp, Ho.
    + split; [by apply hush_logged|done].
    + by apply IH.
Qed.

Lemma parse_cmd_line_hush (argv : list cli_arg) (st : state) :
  hush (parse_cmd_line argv st).2
  = hush (parse_cmd_line (List.filter not_verbose argv) st).2
  ∧ match (parse_cmd_line argv st).1,
          (parse_cmd_line (List.filter not_verbose argv) st).1 with
    | Ok args, Ok args' => hush_args args = hush_args args'
    | Raise e, Raise e' => e = e'
    | _, _ => False
    end.
Proof.
  unfold_parse_cmd_line. unfold bind.
  destruct (consume_hush argv initial_namespace initial_namespace [] st st
              eq_refl eq_refl) as [Hst Hr].
  destruct (consume argv initial_namespace [] st) as [[[ns extras]|e] st1];
    destruct (consume (List.filter not_verbose argv) initial_namespace [] st)
      as [[[ns' extras']|e'] st1']; simpl in Hst, Hr; try done.
  destruct Hr as [Hns ->].
  apply hush_namespace_inv in Hns as (Hd & Ht & Hp & Ho).
  simpl. rewrite Ht, Hp.
  destruct (ns_templates ns'), (ns_dispatch ns'); try destruct extras';
    simpl; (split; [by apply hush_logged || done|]); try done.
  unfold hush_args. simpl. by rewrite Hd, Ho.
Qed.

Lemma render_one_hush searchpath item st st' :
  hush st = hush st' →
  (render_one searchpath item st).1 = (render_one searchpath item st').1
  ∧ hush (render_one searchpath item st).2 = hush (render_one searchpath item st').2.
Proof.
  intros Hst. pose proof (hush_eq_inv _ _ Hst) as (Hfs & HD & Htr).
  destruct item as [[tname context] output_file].
  rewrite !render_one_steps, Hfs.
  destruct (template_source (fs st') searchpath tname) as [source|];
    [|by split; [|apply hush_logged]].
  destruct (compile engine source) as [t|e]; [|by split; [|apply hush_logged]].
  destruct (open_error (fs st') output_file) as [e|];
    [by split; [|apply hush_logged]|].
  destruct (render engine t context) as [text|e];
    (split; [done|]); apply hush_eq_intro; simpl; try done;
    by rewrite !map_app, Htr.
Qed.

Lemma render_loop_hush searchpath g :
  ∀ st st',
    hush st = hush st' →
    (render_loop searchpath g st).1 = (render_loop searchpath g st').1
    ∧ hush (render_loop searchpath g st).2 = hush (render_loop searchpath g st').2.
Proof.
  induction g as [|e|item rest IH]; intros st st' Hst; [done|done|].
  rewrite !render_loop_yield.
  destruct (render_one_hush searchpath item st st' Hst) as [Hr Hs].
  destruct (render_one searchpath item st) as [[[]|e] st1];
    destruct (render_one searchpath item st') as [[[]|e'] st1'];
    simpl in Hr, Hs; try done.
  by apply IH.
Qed.

Lemma loaded_hush args args' st st' :
  hush_args args = hush_args args' → hush st = hush st' →
  hush (loaded args st) = hush (loaded args' st').
Proof.
  unfold hush_args. intros [= Hd Ht Hp Ho] Hst.
  apply hush_eq_inv in Hst as (Hfs & HD & Htr).
  apply hush_eq_intro; [done|done|].
  unfold loaded, logged. simpl. rewrite !map_app, Htr, HD, Hd, Ht, Hp, Ho.
  by destruct (DEBUG st').
Qed.

Lemma main_from_hush args args' st st' :
  hush_args args = hush_args args' → hush st = hush st' →
  (main_from args st).1 = (main_from args' st').1
  ∧ hush (main_from args st).2 = hush (main_from args' st').2.
Proof.
  intros Hargs Hst. pose proof (loaded_hush _ _ _ _ Hargs Hst) as Hloaded.
  unfold hush_args in Hargs. injection Hargs as Hd Ht Hp Ho.
  pose proof (hush_eq_inv _ _ Hst) as (Hfs & _).
  rewrite !main_from_steps, Hfs, Hp, Ho, Ht.
  destruct (exec_module (fs st') (dispatch args')) as [dispatcher|e1]; [|done].
  destruct (parse_dispatch_opts (dispatch_opts args')) as [kw|e2]; [|done].
  destruct (dispatch_attr dispatcher) as [entry|]; [|done].
  destruct (entry kw) as [g|e3]; [|by split; [|apply hush_logged]].
  unfold bind.
  destruct (render_loop_hush (templates args') g
              (logged (loaded args st) [CallDispatch kw])
              (logged (loaded args' st') [CallDispatch kw])
              (hush_logged _ _ _ Hloaded)) as [Hr Hs].
  destruct (render_loop (templates args') g
              (logged (loaded args st) [CallDispatch kw])) as [[[]|e] st2];
    destruct (render_loop (templates args') g
                (logged (loaded args' st') [CallDispatch kw])) as [[[]|e'] st2'];
    simpl in Hr, Hs; try done.
  by inversion Hr.
Qed.

(** [-v] and [--verbose] change nothing that can be seen: a command line
    and the same without its verbose flags end with the same exit
    status, the same filesystem and the same trace, but for the verbose
    field of the arguments that [--debug] prints. *)
Theorem verbose_changes_nothing (argv : list cli_arg) (st : state) :
  (run argv st).1 = (run (List.filter not_verbose argv) st).1
  ∧ hush (run argv st).2 = hush (run (List.filter not_verbose argv) st).2
  ∧ fs (run argv st).2 = fs (run (List.filter not_verbose argv) st).2.
Proof.
  assert (Hmain : (main argv st).1 = (main (List.filter not_verbose argv) st).1
                  ∧ hush (main argv st).2
                    = hush (main (List.filter not_verbose argv) st).2).
  { rewrite !main_steps.
    destruct (parse_cmd_line_hush argv st) as [Hst Hr].
    destruct (parse_cmd_line argv st) as [[args|e] st1];
      destruct (parse_cmd_line (List.filter not_verbose argv) st)
        as [[args'|e'] st1']; simpl in Hst, Hr; try done.
    - by apply main_from_hush.
    - by subst. }
  destruct Hmain as [Hr Hs].
  assert (Hrun : (run argv st).1 = (run (List.filter not_verbose argv) st).1
                 ∧ hush (run argv st).2
                   = hush (run (List.filter not_verbose argv) st).2).
  { rewrite !run_of_main.
    destruct (main argv st) as [[status|[code| |cls msg|cls]] st1];
      destruct (main (List.filter not_verbose argv) st)
        as [[status'|[code'| |cls' msg'|cls']] st1'];
      simpl in Hr, Hs; try done; simpl; (split; [done|]);
      try done; inversion Hr; subst; by apply hush_logged. }
  destruct Hrun as [H1 H2]. split; [done|]. split; [done|].
  by apply hush_eq_inv in H2 as (Hfs & _).
Qed.

End VerboseFacts.

Lemma verbose_changes_nothing_example :
  Demo.run_with [Demo.hello] (ArgVerbose :: Demo.argv)
  = (0%Z, mkState (fs Demo.after_hello) false true (trace Demo.after_hello)).
Proof. vm_compute. reflexivity. Qed.
